(** * aws-cloudformation-github-deploy: the deployment helpers and field parsers

    A shallow embedding of [src/utils.ts] and [src/deploy.ts].

    - JavaScript strings are sequences of UTF-16 code units ([jsstring]).
    - [undefined] is [None]; a value of type [T | undefined] is an [option T].
    - A JavaScript [Map] is an insertion-ordered association list ([JsMap]).
    - An [async] function is a computation over the log of requests issued
      so far; it resolves with a value or rejects with an exception. *)

From Stdlib Require Import List NArith ZArith Bool Lia String Ascii.
From Stdlib Require Import Floats.SpecFloat.
Import ListNotations.

(* ================================================================= *)
(** ** JavaScript strings *)

Definition jsstring := list N.

(** ASCII literals of the source, as code units. *)
Definition js (s : string) : jsstring :=
  List.map N_of_ascii (list_ascii_of_string s).

Fixpoint str_eqb (a b : jsstring) : bool :=
  match a, b with
  | [], [] => true
  | x :: a', y :: b' => N.eqb x y && str_eqb a' b'
  | _, _ => false
  end.

(** [undefined] rendered by a template literal or by string concatenation. *)
Definition template (v : option jsstring) : jsstring :=
  match v with
  | Some s => s
  | None => js "undefined"
  end.

(** Truthiness of a [string | undefined]: [undefined] and the empty string
    are falsy. *)
Definition truthy (v : option jsstring) : bool :=
  match v with
  | Some (_ :: _) => true
  | _ => false
  end.

(** WhiteSpace and LineTerminator code units of ECMAScript, the set removed by
    [String.prototype.trim] and skipped by [parseInt]. *)
Definition isWhiteSpace (c : N) : bool :=
  match c with
  | 9 | 10 | 11 | 12 | 13 | 32 | 160 | 5760
  | 8192 | 8193 | 8194 | 8195 | 8196 | 8197 | 8198 | 8199 | 8200 | 8201 | 8202
  | 8232 | 8233 | 8239 | 8287 | 12288 | 65279 => true
  | _ => false
  end%N.

Fixpoint trimStart (s : jsstring) : jsstring :=
  match s with
  | [] => []
  | c :: s' => if isWhiteSpace c then trimStart s' else s
  end.

Definition trimEnd (s : jsstring) : jsstring := rev (trimStart (rev s)).

(** [s.trim()] *)
Definition trim (s : jsstring) : jsstring := trimEnd (trimStart s).

(** [s.split(sep)] for a separator of one code unit. The result is never
    empty: it is returned as its first piece and the remaining ones. *)
Fixpoint split (sep : N) (s : jsstring) : jsstring * list jsstring :=
  match s with
  | [] => ([], [])
  | c :: s' =>
      let (p, ps) := split sep s' in
      if N.eqb c sep then ([], p :: ps) else (c :: p, ps)
  end.

Definition pieces (r : jsstring * list jsstring) : list jsstring :=
  fst r :: snd r.

(** [[a, b, ...].join(sep)] on strings. *)
Fixpoint join (sep : jsstring) (l : list jsstring) : jsstring :=
  match l with
  | [] => []
  | [a] => a
  | a :: l' => a ++ sep ++ join sep l'
  end.

Fixpoint startsWith (p s : jsstring) : bool :=
  match p, s with
  | [], _ => true
  | a :: p', b :: s' => N.eqb a b && startsWith p' s'
  | _ :: _, [] => false
  end.

(** [s.includes(p)]; also [s.match(/p/)] being non-null for a pattern [p]
    made of literal characters only. *)
Fixpoint includes (s p : jsstring) : bool :=
  startsWith p s ||
  match s with
  | [] => false
  | _ :: s' => includes s' p
  end.

Definition comma : N := 44.
Definition equals : N := 61.

(* ================================================================= *)
(** ** The JavaScript [Map], keyed by strings *)

Module JsMap.
Section WithValues.
Variable V : Type.

Definition t := list (jsstring * V).

Definition empty : t := [].

(** [m.get(k)]: [None] when the key is not in the map. *)
Fixpoint get (k : jsstring) (m : t) : option V :=
match m with
| [] => None
| (k', v) :: m' => if str_eqb k k' then Some v else get k m'
end.

(** [m.set(k, v)]: an existing key keeps its place, a new one goes last. *)
Fixpoint set (k : jsstring) (v : V) (m : t) : t :=
match m with
| [] => [(k, v)]
| (k', v') :: m' =>
    if str_eqb k k' then (k, v) :: m' else (k', v') :: set k v m'
end.

(** [[...m.keys()]] *)
Definition keys (m : t) : list jsstring := List.map fst m.
End WithValues.

Arguments get {V} k m.
Arguments set {V} k v m.
Arguments keys {V} m.
End JsMap.

(* ================================================================= *)
(** ** src/utils.ts *)

(** *** parseInt *)

(** A JavaScript Number: an IEEE 754 double, as the Standard Library
    specifies them ([prec = 53], [emax = 1024]). *)
Definition Number := spec_float.

(** The Number for a mathematical integer: the nearest double, ties to the
    even mantissa, an infinity beyond the range of the doubles. *)
Definition toNumber (z : Z) : Number := binary_normalize 53 1024 z 0 false.

(** Truthiness of a Number: [NaN], [+0] and [-0] are falsy. *)
Definition truthyNumber (x : Number) : bool :=
  match x with
  | S754_nan | S754_zero _ => false
  | _ => true
  end.

(** Value of a code unit as a digit: [0-9], [a-z], [A-Z]. *)
Definition digitValue (c : N) : option Z :=
  if (48 <=? c)%N && (c <=? 57)%N then Some (Z.of_N c - 48)%Z
  else if (97 <=? c)%N && (c <=? 122)%N then Some (Z.of_N c - 87)%Z
  else if (65 <=? c)%N && (c <=? 90)%N then Some (Z.of_N c - 55)%Z
  else None.

Definition radixDigit (R : Z) (c : N) : option Z :=
  match digitValue c with
  | Some d => if (d <? R)%Z then Some d else None
  | None => None
  end.

(** The longest prefix of radix-[R] digits, most significant first. *)
Fixpoint leadingDigits (R : Z) (s : jsstring) : list Z :=
  match s with
  | [] => []
  | c :: s' =>
      match radixDigit R c with
      | Some d => d :: leadingDigits R s'
      | None => []
      end
  end.

Definition digitsValue (R : Z) (ds : list Z) : Z :=
  fold_left (fun acc d => acc * R + d)%Z ds 0%Z.

(** The string starts with ["0x"] or ["0X"]. *)
Definition hexPrefixed (s : jsstring) : bool :=
  match s with
  | c0 :: c1 :: _ => N.eqb c0 48 && (N.eqb c1 120 || N.eqb c1 88)
  | _ => false
  end.

(** [parseInt(s)] with no radix argument, after the ECMAScript algorithm:
    leading white space is skipped, a sign ['-'] (45) or ['+'] (43) is
    read, a prefix ["0x"] or ["0X"] selects radix 16, and the longest run
    of digits is read. Without a digit the result is [NaN]; a run that
    writes zero gives [-0] after a minus sign and [+0] otherwise; any other
    run gives the Number for [sign * mathInt]. ECMAScript lets an
    implementation approximate a decimal run after its 20th significant
    digit; the Number taken here is the correctly rounded one, which is
    what Node's engine computes. *)
Definition parseInt (s : jsstring) : Number :=
  let S0 := trimStart s in
  let '(sign, S1) :=
    match S0 with
    | c :: r =>
        if N.eqb c 45 then ((-1)%Z, r)
        else if N.eqb c 43 then (1%Z, r)
        else (1%Z, S0)
    | [] => (1%Z, S0)
    end in
  let '(R, S2) :=
    if hexPrefixed S1 then (16%Z, skipn 2 S1) else (10%Z, S1) in
  match leadingDigits R S2 with
  | [] => S754_nan
  | ds =>
      let mathInt := digitsValue R ds in
      if (mathInt =? 0)%Z then S754_zero (sign <? 0)%Z
      else toNumber (sign * mathInt)
  end.

(** [parseInt(s) || undefined]: [NaN] and the zeros are falsy. *)
Definition parseNumber (s : jsstring) : option Number :=
  let n := parseInt s in
  if truthyNumber n then Some n else None.

(** *** parseParameters *)

(** The SDK's [Parameter] shape ([Parameter] is reserved in Rocq). *)
Record ParameterEntry := {
  ParameterKey : jsstring;
  ParameterValue : option jsstring
}.

(** [const [key, value] = parameter.trim().split('=')] *)
Definition key_value (parameter : jsstring) : jsstring * option jsstring :=
  let (key, rest) := split equals (trim parameter) in
  (key, hd_error rest).

(** [[param, value].join(',')], where [join] writes [undefined] as the empty
    string. *)
Definition join_pair (param : jsstring) (value : option jsstring) : jsstring :=
  param ++ [comma] ++ match value with Some v => v | None => [] end.

(** The body of the [forEach] callback. A stored value may be [undefined],
    so [parameters.get(key)] is flattened. *)
Definition add_parameter (parameters : JsMap.t (option jsstring))
    (parameter : jsstring) : JsMap.t (option jsstring) :=
  let (key, value) := key_value parameter in
  let param :=
    match JsMap.get key parameters with
    | Some p => p
    | None => None
    end in
  let param' :=
    match param with
    | Some (c :: p) => Some (join_pair (c :: p) value)
    | _ => value
    end in
  JsMap.set key param' parameters.

Definition parameters_of (parameterOverrides : jsstring)
    : JsMap.t (option jsstring) :=
  fold_left add_parameter (pieces (split comma parameterOverrides))
    (JsMap.empty _).

Definition parseParameters (parameterOverrides : jsstring)
    : list ParameterEntry :=
  let parameters := parameters_of parameterOverrides in
  List.map
    (fun key =>
       {| ParameterKey := key;
          ParameterValue :=
            match JsMap.get key parameters with
            | Some p => p
            | None => None
            end |})
    (JsMap.keys parameters).

(* ================================================================= *)
(** ** Exceptions, promises and the request log *)

(** A thrown value. Every error has a [message]; an SDK error carries a
    [code], an [Error] made by [new Error(msg)] has none. *)
Record Exn := {
  code : option jsstring;
  message : jsstring
}.

(** [new Error(msg)] *)
Definition Error (msg : jsstring) : Exn := {| code := None; message := msg |}.

Inductive Outcome (A : Type) : Type :=
| Resolved (a : A)
| Rejected (e : Exn).
Arguments Resolved {A} a.
Arguments Rejected {A} e.

(** *** Shapes of the provider's API, restricted to the fields the code reads *)

Module Output.
Record t := {
  OutputKey : option jsstring;
  OutputValue : option jsstring
}.
End Output.

Module Stack.
Record t := {
  StackId : option jsstring;
  StackName : jsstring;
  Outputs : option (list Output.t)
}.
End Stack.

Module DescribeStacksOutput.
Record t := { Stacks : option (list Stack.t) }.
End DescribeStacksOutput.

Module CreateStackOutput.
Record t := { StackId : option jsstring }.
End CreateStackOutput.

Module CreateChangeSetOutput.
Record t := { Id : option jsstring; StackId : option jsstring }.
End CreateChangeSetOutput.

Module DescribeChangeSetOutput.
Record t := {
  Status : option jsstring;
  StatusReason : option jsstring
}.
End DescribeChangeSetOutput.

Module Tag.
Record t := { Key : jsstring; Value : jsstring }.
End Tag.

Module RollbackConfiguration.
Record t := {
  RollbackTriggers : option (list (jsstring * jsstring));
  MonitoringTimeInMinutes : option Z
}.
End RollbackConfiguration.

(** Modelled from the spec: [CreateStackInput] and [CreateChangeSetInput] are
    declared in [main.ts]; they are given the fields that [deployStack] reads
    and the spec's ChangeSetRequest lists. *)
Module CreateStackInput.
Record t := {
  StackName : jsstring;
  TemplateBody : option jsstring;
  Parameters : option (list ParameterEntry);
  Capabilities : option (list jsstring);
  ResourceTypes : option (list jsstring);
  RoleARN : option jsstring;
  RollbackConfiguration : option RollbackConfiguration.t;
  NotificationARNs : option (list jsstring);
  Tags : option (list Tag.t)
}.
End CreateStackInput.

Module CreateChangeSetInput.
Record t := {
  ChangeSetName : jsstring;
  StackName : jsstring;
  TemplateBody : option jsstring;
  Parameters : option (list ParameterEntry);
  Capabilities : option (list jsstring);
  ResourceTypes : option (list jsstring);
  RoleARN : option jsstring;
  RollbackConfiguration : option RollbackConfiguration.t;
  NotificationARNs : option (list jsstring);
  Tags : option (list Tag.t)
}.
End CreateChangeSetInput.

(** [{ ChangeSetName, StackName }], the argument of the change-set calls. *)
Module ChangeSetRef.
Record t := { ChangeSetName : jsstring; StackName : jsstring }.
End ChangeSetRef.

(** [waitFor(state, params)] *)
Inductive Waiter :=
| changeSetCreateComplete (r : ChangeSetRef.t)
| stackUpdateComplete (StackName : option jsstring)
| stackCreateComplete (StackName : jsstring).

Module ShortenRequest.
Record t := {
  url : jsstring;
  long_url : jsstring;
  domain : jsstring;
  Authorization : jsstring
}.
End ShortenRequest.

Module UrlShortenerResponse.
Record t := { link : jsstring; long_url : jsstring }.
End UrlShortenerResponse.

(** *** Requests sent out, in the order they are issued *)

Inductive Request :=
| DescribeStacks (StackName : jsstring)
| CreateStack (params : CreateStackInput.t)
| CreateChangeSet (params : CreateChangeSetInput.t)
| DescribeChangeSet (r : ChangeSetRef.t)
| DeleteChangeSet (r : ChangeSetRef.t)
| ExecuteChangeSet (r : ChangeSetRef.t)
| WaitFor (w : Waiter)
| HttpPost (r : ShortenRequest.t).

Definition Log := list Request.

(** The provider client. Each method answers a request, given the requests
    issued before it: it resolves with a response or rejects with an error. *)
Module CloudFormation.
Record t := {
  describeStacks : Log -> jsstring -> Outcome DescribeStacksOutput.t;
  createStack : Log -> CreateStackInput.t -> Outcome CreateStackOutput.t;
  createChangeSet :
    Log -> CreateChangeSetInput.t -> Outcome CreateChangeSetOutput.t;
  describeChangeSet :
    Log -> ChangeSetRef.t -> Outcome DescribeChangeSetOutput.t;
  deleteChangeSet : Log -> ChangeSetRef.t -> Outcome unit;
  executeChangeSet : Log -> ChangeSetRef.t -> Outcome unit;
  waitFor : Log -> Waiter -> Outcome unit
}.
End CloudFormation.

(** What [genCfnUrl] takes from its surroundings: [aws.config.region],
    [process.env.BITLY_TOKEN], the built-in [encodeURIComponent] (which may
    throw) and [axios.post]. *)
Module Runtime.
Record t := {
  region : option jsstring;
  BITLY_TOKEN : option jsstring;
  encodeURIComponent : jsstring -> Outcome jsstring;
  axios_post : Log -> ShortenRequest.t -> Outcome UrlShortenerResponse.t
}.
End Runtime.

(** *** The monad of [async] functions *)

Definition Async (A : Type) : Type := Log -> Outcome A * Log.

Definition ret {A} (a : A) : Async A := fun h => (Resolved a, h).

Definition throw {A} (e : Exn) : Async A := fun h => (Rejected e, h).

Definition bind {A B} (m : Async A) (k : A -> Async B) : Async B :=
  fun h =>
    match m h with
    | (Resolved a, h') => k a h'
    | (Rejected e, h') => (Rejected e, h')
    end.

(** [try { await m } catch (e) { ... }]: the outcome of [m], caught. *)
Definition attempt {A} (m : Async A) : Async (Outcome A) :=
  fun h => let (o, h') := m h in (Resolved o, h').

(** [await cfn.method(input).promise()] *)
Definition promise {I O} (request : I -> Request)
    (method : Log -> I -> Outcome O) (input : I) : Async O :=
  fun h => (method h input, h ++ [request input]).

(** A synchronous call that may throw. *)
Definition lift {A} (o : Outcome A) : Async A := fun h => (o, h).

Declare Scope async_scope.
Delimit Scope async_scope with async.
Notation "x <- m ;; k" := (bind m (fun x => k))
  (at level 61, m at next level, right associativity) : async_scope.
Notation "m ;; k" := (bind m (fun _ => k))
  (at level 61, right associativity) : async_scope.
Local Open Scope async_scope.

(* ================================================================= *)
(** ** src/deploy.ts *)

Section Deploy.
Variable rt : Runtime.t.

(** The arguments are typed [string], and [updateStack] passes
    [stack.StackId!] and [cset.Id!]: the assertions vanish at run time, so
    either may be [undefined], which [encodeURIComponent] reads as the
    text ["undefined"]. *)
Definition genCfnUrl (stackArn changeSetArn : option jsstring)
    : Async jsstring :=
  stackId <- lift (Runtime.encodeURIComponent rt (template stackArn)) ;;
  changeSetId <-
    lift (Runtime.encodeURIComponent rt (template changeSetArn)) ;;
  let url :=
    js "https://console.aws.amazon.com/cloudformation/home"
    ++ (js "?region=" ++ template (Runtime.region rt)
        ++ js "#/stacks/changesets/changes")
    ++ (js "?stackId=" ++ stackId)
    ++ (js "&changeSetId=" ++ changeSetId) in
  short <-
    promise HttpPost (Runtime.axios_post rt)
      {| ShortenRequest.url := js "https://api-ssl.bitly.com/v4/shorten";
         ShortenRequest.long_url := url;
         ShortenRequest.domain := js "bit.ly";
         ShortenRequest.Authorization :=
           js "Bearer " ++ template (Runtime.BITLY_TOKEN rt) |} ;;
  ret (UrlShortenerResponse.link short).

Definition ref_of (params : CreateChangeSetInput.t) : ChangeSetRef.t :=
  {| ChangeSetRef.ChangeSetName := CreateChangeSetInput.ChangeSetName params;
     ChangeSetRef.StackName := CreateChangeSetInput.StackName params |}.

Definition knownErrorMessages : list jsstring :=
  [ js "No updates are to be performed";
    js "The submitted information didn't contain changes" ].

(** [knownErrorMessages.some(err => StatusReason?.includes(err))] *)
Definition isKnownError (StatusReason : option jsstring) : bool :=
  existsb
    (fun err =>
       match StatusReason with
       | Some reason => includes reason err
       | None => false
       end)
    knownErrorMessages.

(** [Status === 'FAILED'] *)
Definition isFailed (Status : option jsstring) : bool :=
  match Status with
  | Some s => str_eqb s (js "FAILED")
  | None => false
  end.

Definition cleanupChangeSet (cfn : CloudFormation.t) (stack : Stack.t)
    (params : CreateChangeSetInput.t)
    (noEmptyChangeSet noDeleteFailedChangeSet : bool)
    : Async (option jsstring) :=
  changeSetStatus <-
    promise DescribeChangeSet (CloudFormation.describeChangeSet cfn)
      (ref_of params) ;;
  if isFailed (DescribeChangeSetOutput.Status changeSetStatus) then
    (if negb noDeleteFailedChangeSet then
       promise DeleteChangeSet (CloudFormation.deleteChangeSet cfn)
         (ref_of params)
     else ret tt) ;;
    if noEmptyChangeSet
       && isKnownError (DescribeChangeSetOutput.StatusReason changeSetStatus)
    then ret (Stack.StackId stack)
    else
      throw
        (Error
           (js "Failed to create Change Set: "
            ++ template
                 (DescribeChangeSetOutput.StatusReason changeSetStatus)))
  else ret None.

Definition updateStack (cfn : CloudFormation.t) (stack : Stack.t)
    (params : CreateChangeSetInput.t)
    (noEmptyChangeSet noExecuteChageSet noDeleteFailedChangeSet : bool)
    : Async (option jsstring) :=
  cset <-
    promise CreateChangeSet (CloudFormation.createChangeSet cfn) params ;;
  waited <-
    attempt
      (promise WaitFor (CloudFormation.waitFor cfn)
         (changeSetCreateComplete (ref_of params))) ;;
  match waited with
  | Rejected e =>
      cleanupChangeSet cfn stack params noEmptyChangeSet
        noDeleteFailedChangeSet
  | Resolved _ =>
      if noExecuteChageSet then
        genCfnUrl (Stack.StackId stack) (CreateChangeSetOutput.Id cset) ;;
        ret (Stack.StackId stack)
      else
        promise ExecuteChangeSet (CloudFormation.executeChangeSet cfn)
          (ref_of params) ;;
        promise WaitFor (CloudFormation.waitFor cfn)
          (stackUpdateComplete (Stack.StackId stack)) ;;
        ret (Stack.StackId stack)
  end.

(** [e.code === 'ValidationError' && e.message.match(/does not exist/)] *)
Definition isNotFound (e : Exn) : bool :=
  match code e with
  | Some c => str_eqb c (js "ValidationError")
  | None => false
  end
  && includes (message e) (js "does not exist").

(** [stacks.Stacks?.[0]] *)
Definition firstStack (stacks : DescribeStacksOutput.t) : option Stack.t :=
  match DescribeStacksOutput.Stacks stacks with
  | Some l => hd_error l
  | None => None
  end.

Definition getStack (cfn : CloudFormation.t) (stackNameOrId : jsstring)
    : Async (option Stack.t) :=
  described <-
    attempt
      (promise DescribeStacks (CloudFormation.describeStacks cfn)
         stackNameOrId) ;;
  match described with
  | Resolved stacks => ret (firstStack stacks)
  | Rejected e => if isNotFound e then ret None else throw e
  end.

Definition changeSetInput (params : CreateStackInput.t)
    : CreateChangeSetInput.t :=
  {| CreateChangeSetInput.ChangeSetName :=
       CreateStackInput.StackName params ++ js "-CS";
     CreateChangeSetInput.StackName := CreateStackInput.StackName params;
     CreateChangeSetInput.TemplateBody :=
       CreateStackInput.TemplateBody params;
     CreateChangeSetInput.Parameters := CreateStackInput.Parameters params;
     CreateChangeSetInput.Capabilities :=
       CreateStackInput.Capabilities params;
     CreateChangeSetInput.ResourceTypes :=
       CreateStackInput.ResourceTypes params;
     CreateChangeSetInput.RoleARN := CreateStackInput.RoleARN params;
     CreateChangeSetInput.RollbackConfiguration :=
       CreateStackInput.RollbackConfiguration params;
     CreateChangeSetInput.NotificationARNs :=
       CreateStackInput.NotificationARNs params;
     CreateChangeSetInput.Tags := CreateStackInput.Tags params |}.

Definition deployStack (cfn : CloudFormation.t) (params : CreateStackInput.t)
    (noEmptyChangeSet noExecuteChageSet noDeleteFailedChangeSet : bool)
    : Async (option jsstring) :=
  found <- getStack cfn (CreateStackInput.StackName params) ;;
  match found with
  | None =>
      stack <-
        promise CreateStack (CloudFormation.createStack cfn) params ;;
      promise WaitFor (CloudFormation.waitFor cfn)
        (stackCreateComplete (CreateStackInput.StackName params)) ;;
      ret (CreateStackOutput.StackId stack)
  | Some stack =>
      updateStack cfn stack (changeSetInput params) noEmptyChangeSet
        noExecuteChageSet noDeleteFailedChangeSet
  end.

(** The body of the loop over [stack.Outputs]. *)
Definition add_output (outputs : JsMap.t jsstring) (output : Output.t)
    : JsMap.t jsstring :=
  match Output.OutputKey output, Output.OutputValue output with
  | Some (c :: k), Some (d :: v) => JsMap.set (c :: k) (d :: v) outputs
  | _, _ => outputs
  end.

Definition getStackOutputs (cfn : CloudFormation.t) (stackId : jsstring)
    : Async (JsMap.t jsstring) :=
  let outputs := JsMap.empty jsstring in
  found <- getStack cfn stackId ;;
  match found with
  | Some stack =>
      match Stack.Outputs stack with
      | Some l => ret (fold_left add_output l outputs)
      | None => ret outputs
      end
  | None => ret outputs
  end.
End Deploy.

(* ================================================================= *)
(** ** Vocabulary of the statements *)

(** *** Parameter overrides *)

(** The [(key, value)] pairs of the comma-separated pieces, in order. *)
Definition pairs (parameterOverrides : jsstring)
    : list (jsstring * option jsstring) :=
  List.map key_value (pieces (split comma parameterOverrides)).

(** The values given to [k], in encounter order. *)
Definition values_of (k : jsstring) (ps : list (jsstring * option jsstring))
    : list (option jsstring) :=
  List.map snd (filter (fun p => str_eqb (fst p) k) ps).

(** The text a value contributes to a concatenation: a piece with no ['=']
    has no value and contributes nothing. *)
Definition value_text (v : option jsstring) : jsstring :=
  match v with
  | Some x => x
  | None => []
  end.

(** Each key once, in the order of first occurrence. *)
Fixpoint first_seen (ks : list jsstring) : list jsstring :=
  match ks with
  | [] => []
  | k :: ks' => k :: filter (fun k' => negb (str_eqb k' k)) (first_seen ks')
  end.

(** The entries of the result that carry key [k]. *)
Definition entries_for (k : jsstring) (l : list ParameterEntry)
    : list ParameterEntry :=
  filter (fun e => str_eqb (ParameterKey e) k) l.

(** The accumulator of one key: what [add_parameter] does to the stored
    value when the key comes again. *)
Definition accumulate (param value : option jsstring) : option jsstring :=
  match param with
  | Some (c :: p) => Some (join_pair (c :: p) value)
  | _ => value
  end.

Definition add_pair (parameters : JsMap.t (option jsstring))
    (p : jsstring * option jsstring) : JsMap.t (option jsstring) :=
  JsMap.set (fst p)
    (accumulate
       (match JsMap.get (fst p) parameters with
        | Some v => v
        | None => None
        end)
       (snd p))
    parameters.

Definition stored (k : jsstring) (m : JsMap.t (option jsstring))
    : option jsstring :=
  match JsMap.get k m with
  | Some v => v
  | None => None
  end.

Definition mem (k : jsstring) (l : list jsstring) : bool :=
  existsb (str_eqb k) l.

(** The key [k] comes more than once in the input. *)
Definition repeated (k : jsstring) (parameterOverrides : jsstring) : Prop :=
  2 <= List.length (values_of k (pairs parameterOverrides)).

(** The result has exactly one entry for [k], and its value is the
    comma-separated concatenation of the values of [k]. *)
Definition concatenated (k : jsstring) (parameterOverrides : jsstring)
    : Prop :=
  entries_for k (parseParameters parameterOverrides) =
  [ {| ParameterKey := k;
       ParameterValue :=
         Some (join [comma]
                 (List.map value_text
                    (values_of k (pairs parameterOverrides)))) |} ].

(** The entries come in first-seen key order. *)
Definition first_seen_order (parameterOverrides : jsstring) : Prop :=
  List.map ParameterKey (parseParameters parameterOverrides) =
  first_seen (List.map fst (pairs parameterOverrides)).

(** *** Requests *)

Definition isCreateStack (r : Request) : bool :=
  match r with
  | CreateStack _ => true
  | _ => false
  end.

(** The change-set operations: create, describe, delete, execute, and the
    wait for the creation of a change set. *)
Definition isChangeSetRequest (r : Request) : bool :=
  match r with
  | CreateChangeSet _ | DescribeChangeSet _ | DeleteChangeSet _
  | ExecuteChangeSet _ | WaitFor (changeSetCreateComplete _) => true
  | _ => false
  end.

Definition isDeleteChangeSet (r : Request) : bool :=
  match r with
  | DeleteChangeSet _ => true
  | _ => false
  end.

(** The change-set name a request carries, if it carries one. *)
Definition changeSetName (r : Request) : option jsstring :=
  match r with
  | CreateChangeSet p => Some (CreateChangeSetInput.ChangeSetName p)
  | DescribeChangeSet c | DeleteChangeSet c | ExecuteChangeSet c
  | WaitFor (changeSetCreateComplete c) =>
      Some (ChangeSetRef.ChangeSetName c)
  | _ => None
  end.

(** Every request that [m] issues, from any log, satisfies [P]. *)
Definition emits {A} (P : Request -> Prop) (m : Async A) : Prop :=
  forall h, exists l, snd (m h) = h ++ l /\ Forall P l.

(** *** Errors *)

(** A validation error whose message says that the stack does not exist. *)
Definition NotFoundError (e : Exn) : Prop :=
  code e = Some (js "ValidationError")
  /\ exists a b, message e = a ++ js "does not exist" ++ b.

(** The reason contains one of the two known messages. *)
Definition KnownReason (StatusReason : option jsstring) : Prop :=
  exists reason a b,
    StatusReason = Some reason
    /\ (reason = a ++ js "No updates are to be performed" ++ b
        \/ reason =
           a ++ js "The submitted information didn't contain changes" ++ b).

(** *** Outputs *)

(** An output whose key and value are both present and non-empty. *)
Definition present (o : Output.t) : bool :=
  truthy (Output.OutputKey o) && truthy (Output.OutputValue o).

(** The value of the last output of [l] that is [present] under key [k]. *)
Definition last_output (k : jsstring) (l : list Output.t) : option jsstring :=
  match
    find (fun o => present o && str_eqb (value_text (Output.OutputKey o)) k)
      (rev l)
  with
  | Some o => Some (value_text (Output.OutputValue o))
  | None => None
  end.

(* ================================================================= *)
(** ** Scripted providers, for concrete runs *)

(** A provider that answers each kind of request with a fixed outcome. *)
Definition scripted
    (described : Outcome DescribeStacksOutput.t)
    (created : Outcome CreateStackOutput.t)
    (changeSet : Outcome CreateChangeSetOutput.t)
    (status : Outcome DescribeChangeSetOutput.t)
    (deleted executed : Outcome unit)
    (waited : Waiter -> Outcome unit) : CloudFormation.t :=
  {| CloudFormation.describeStacks := fun _ _ => described;
     CloudFormation.createStack := fun _ _ => created;
     CloudFormation.createChangeSet := fun _ _ => changeSet;
     CloudFormation.describeChangeSet := fun _ _ => status;
     CloudFormation.deleteChangeSet := fun _ _ => deleted;
     CloudFormation.executeChangeSet := fun _ _ => executed;
     CloudFormation.waitFor := fun _ w => waited w |}.

(** A runtime whose [encodeURIComponent] leaves its argument as it is and
    whose shortener answers with a fixed link. *)
Definition plain_runtime : Runtime.t :=
  {| Runtime.region := Some (js "us-east-1");
     Runtime.BITLY_TOKEN := Some (js "token");
     Runtime.encodeURIComponent := fun s => Resolved s;
     Runtime.axios_post := fun _ r =>
       Resolved {| UrlShortenerResponse.link := js "https://bit.ly/x";
                   UrlShortenerResponse.long_url := ShortenRequest.long_url r |}
  |}.

Definition sample_params : CreateStackInput.t :=
  {| CreateStackInput.StackName := js "MockStack";
     CreateStackInput.TemplateBody := Some (js "{}");
     CreateStackInput.Parameters := None;
     CreateStackInput.Capabilities := Some [js "CAPABILITY_IAM"];
     CreateStackInput.ResourceTypes := None;
     CreateStackInput.RoleARN := None;
     CreateStackInput.RollbackConfiguration := None;
     CreateStackInput.NotificationARNs := None;
     CreateStackInput.Tags := None |}.

Definition sample_stack : Stack.t :=
  {| Stack.StackId := Some (js "arn:stack/MockStack/1");
     Stack.StackName := js "MockStack";
     Stack.Outputs :=
       Some [ {| Output.OutputKey := Some (js "Url");
                 Output.OutputValue := Some (js "https://x") |};
              {| Output.OutputKey := Some (js "Empty");
                 Output.OutputValue := Some [] |};
              {| Output.OutputKey := None;
                 Output.OutputValue := Some (js "v") |} ] |}.

Definition found_sample : Outcome DescribeStacksOutput.t :=
  Resolved {| DescribeStacksOutput.Stacks := Some [sample_stack] |}.

Definition does_not_exist : Exn :=
  {| code := Some (js "ValidationError");
     message := js "Stack with id MockStack does not exist" |}.

Definition throttled : Exn :=
  {| code := Some (js "Throttling"); message := js "Rate exceeded" |}.

Definition wait_failed : Exn :=
  {| code := Some (js "ResourceNotReady");
     message := js "Resource is not in the state changeSetCreateComplete" |}.

Definition failed_status (reason : option jsstring)
    : Outcome DescribeChangeSetOutput.t :=
  Resolved {| DescribeChangeSetOutput.Status := Some (js "FAILED");
              DescribeChangeSetOutput.StatusReason := reason |}.

Definition created_change_set : Outcome CreateChangeSetOutput.t :=
  Resolved {| CreateChangeSetOutput.Id := Some (js "arn:changeSet/1");
              CreateChangeSetOutput.StackId :=
                Some (js "arn:stack/MockStack/1") |}.

(** An existing stack whose change set is empty: the wait for its creation
    fails, its status is [FAILED] with reason [reason]; deleting it answers
    [deleted]. *)
Definition empty_change_set_provider (reason : option jsstring)
    (deleted : Outcome unit) : CloudFormation.t :=
  scripted found_sample (Rejected throttled) created_change_set
    (failed_status reason) deleted (Resolved tt)
    (fun w =>
       match w with
       | changeSetCreateComplete _ => Rejected wait_failed
       | _ => Resolved tt
       end).

(** An existing stack whose change set is still being created when the
    wait gives up. *)
Definition pending_change_set_provider : CloudFormation.t :=
  scripted found_sample (Rejected throttled) created_change_set
    (Resolved {| DescribeChangeSetOutput.Status :=
                   Some (js "CREATE_IN_PROGRESS");
                 DescribeChangeSetOutput.StatusReason := None |})
    (Resolved tt) (Resolved tt)
    (fun w =>
       match w with
       | changeSetCreateComplete _ => Rejected wait_failed
       | _ => Resolved tt
       end).

(** No stack of that name: the lookup is rejected with the validation
    error, creation and every wait succeed. *)
Definition absent_stack_provider : CloudFormation.t :=
  scripted (Rejected does_not_exist)
    (Resolved {| CreateStackOutput.StackId :=
                   Some (js "arn:stack/MockStack/2") |})
    created_change_set (failed_status None) (Resolved tt) (Resolved tt)
    (fun _ => Resolved tt).

(** The lookup succeeds with an empty list of stacks. *)
Definition no_stacks_provider : CloudFormation.t :=
  scripted (Resolved {| DescribeStacksOutput.Stacks := Some [] |})
    (Resolved {| CreateStackOutput.StackId :=
                   Some (js "arn:stack/MockStack/2") |})
    created_change_set (failed_status None) (Resolved tt) (Resolved tt)
    (fun _ => Resolved tt).

(** An existing stack whose change set is created and executed. *)
Definition updating_provider : CloudFormation.t :=
  scripted found_sample (Rejected throttled) created_change_set
    (failed_status None) (Resolved tt) (Resolved tt) (fun _ => Resolved tt).

(** The outputs of a stack; a stack with no [Outputs] list has none. *)
Definition outputs_of (stack : Stack.t) : list Output.t :=
  match Stack.Outputs stack with
  | Some l => l
  | None => []
  end.

(** An output whose key or value is present and is the empty string. *)
Definition hasEmptyField (o : Output.t) : bool :=
  match Output.OutputKey o, Output.OutputValue o with
  | Some [], _ | _, Some [] => true
  | _, _ => false
  end.

(** The verdict of [cleanupChangeSet] on a failed change set. *)
Definition verdict (stack : Stack.t) (noEmptyChangeSet : bool)
    (StatusReason : option jsstring) : Outcome (option jsstring) :=
  if noEmptyChangeSet && isKnownError StatusReason
  then Resolved (Stack.StackId stack)
  else
    Rejected
      (Error (js "Failed to create Change Set: " ++ template StatusReason)).

(** *** Decimal numerals *)

Definition isDecimalDigit (c : N) : bool := (48 <=? c)%N && (c <=? 57)%N.

(** The integer written by a run of decimal digits. *)
Definition decimalValue (ds : jsstring) : Z :=
  fold_left (fun acc c => acc * 10 + (Z.of_N c - 48))%Z ds 0%Z.

(** The lookup is rejected with [e]; everything else succeeds. *)
Definition failing_lookup_provider (e : Exn) : CloudFormation.t :=
  scripted (Rejected e)
    (Resolved {| CreateStackOutput.StackId :=
                   Some (js "arn:stack/MockStack/2") |})
    created_change_set (failed_status None) (Resolved tt) (Resolved tt)
    (fun _ => Resolved tt).

Definition invalid_template : Exn :=
  {| code := Some (js "ValidationError");
     message := js "Template format error: unsupported structure" |}.

(* ================================================================= *)
(** ** src/utils.ts, the other field parsers *)

(** [s?.length > 0 ? s.split(',') : undefined]. The parameter is typed
    [string]; the optional chaining admits [undefined] at run time. *)
Definition parseARNs (s : option jsstring) : option (list jsstring) :=
  match s with
  | Some (c :: r) => Some (pieces (split comma (c :: r)))
  | _ => None
  end.

(** [s?.length > 0 ? s : undefined] *)
Definition parseString (s : option jsstring) : option jsstring :=
  match s with
  | Some (c :: r) => Some (c :: r)
  | _ => None
  end.

(** *** Vocabulary for the parsers *)

(** The values of a key from its first truthy one on. *)
Fixpoint drop_falsy (vs : list (option jsstring)) : list (option jsstring) :=
  match vs with
  | [] => []
  | v :: vs' => if truthy v then vs else drop_falsy vs'
  end.

Definition isHexDigit (c : N) : bool :=
  isDecimalDigit c
  || ((97 <=? c)%N && (c <=? 102)%N)
  || ((65 <=? c)%N && (c <=? 70)%N).

Definition hexDigitValue (c : N) : Z :=
  if isDecimalDigit c then (Z.of_N c - 48)%Z
  else if (97 <=? c)%N then (Z.of_N c - 87)%Z
  else (Z.of_N c - 55)%Z.

(** The integer written by a run of hexadecimal digits. *)
Definition hexValue (hs : jsstring) : Z :=
  fold_left (fun acc c => acc * 16 + hexDigitValue c)%Z hs 0%Z.

(** The string starts with a sign or with white space. *)
Definition signedOrSpaced (s : jsstring) : bool :=
  match s with
  | c :: _ => isWhiteSpace c || N.eqb c 45 || N.eqb c 43
  | [] => false
  end.

(** *** Vocabulary for the requests *)

Definition isDescribeStacks (r : Request) : bool :=
  match r with
  | DescribeStacks _ => true
  | _ => false
  end.

Definition isExecuteChangeSet (r : Request) : bool :=
  match r with
  | ExecuteChangeSet _ => true
  | _ => false
  end.

Definition isStackUpdateWait (r : Request) : bool :=
  match r with
  | WaitFor (stackUpdateComplete _) => true
  | _ => false
  end.

Definition isHttpPost (r : Request) : bool :=
  match r with
  | HttpPost _ => true
  | _ => false
  end.

(** The address of the console page of a change set, up to the region. *)
Definition consoleHome : jsstring :=
  js "https://console.aws.amazon.com/cloudformation/home".

(** The long URL that [genCfnUrl] builds from the encoded identifiers. *)
Definition consoleUrl (region : option jsstring)
    (stackId changeSetId : jsstring) : jsstring :=
  consoleHome
  ++ (js "?region=" ++ template region ++ js "#/stacks/changesets/changes")
  ++ (js "?stackId=" ++ stackId)
  ++ (js "&changeSetId=" ++ changeSetId).

(** The request [genCfnUrl] sends to the link shortener. *)
Definition shortenRequest (rt : Runtime.t) (long_url : jsstring)
    : ShortenRequest.t :=
  {| ShortenRequest.url := js "https://api-ssl.bitly.com/v4/shorten";
     ShortenRequest.long_url := long_url;
     ShortenRequest.domain := js "bit.ly";
     ShortenRequest.Authorization :=
       js "Bearer " ++ template (Runtime.BITLY_TOKEN rt) |}.

(** *** More scripted surroundings *)

Definition shortener_down : Exn :=
  {| code := None; message := js "Request failed with status code 403" |}.

(** A runtime whose link shortener rejects every request. *)
Definition offline_runtime : Runtime.t :=
  {| Runtime.region := Some (js "us-east-1");
     Runtime.BITLY_TOKEN := None;
     Runtime.encodeURIComponent := fun s => Resolved s;
     Runtime.axios_post := fun _ _ => Rejected shortener_down |}.

Definition malformed_uri : Exn :=
  {| code := None; message := js "URI malformed" |}.

(** A runtime whose [encodeURIComponent] throws. *)
Definition unencodable_runtime : Runtime.t :=
  {| Runtime.region := Some (js "us-east-1");
     Runtime.BITLY_TOKEN := Some (js "token");
     Runtime.encodeURIComponent := fun _ => Rejected malformed_uri;
     Runtime.axios_post := Runtime.axios_post plain_runtime |}.

(** A stack whose outputs all have a key and a value, under distinct keys. *)
Definition tidy_outputs : list Output.t :=
  [ {| Output.OutputKey := Some (js "Url");
       Output.OutputValue := Some (js "https://x") |};
    {| Output.OutputKey := Some (js "Arn");
       Output.OutputValue := Some (js "arn:aws:s3:::bucket") |} ].

(** The key and the value of an output, as the map stores them. *)
Definition output_entry (o : Output.t) : jsstring * jsstring :=
  (value_text (Output.OutputKey o), value_text (Output.OutputValue o)).

Definition tidy_stack : Stack.t :=
  {| Stack.StackId := Some (js "arn:stack/MockStack/1");
     Stack.StackName := js "MockStack";
     Stack.Outputs := Some tidy_outputs |}.

(** The lookup finds [tidy_stack]. *)
Definition tidy_provider : CloudFormation.t :=
  scripted
    (Resolved {| DescribeStacksOutput.Stacks := Some [tidy_stack] |})
    (Rejected throttled) created_change_set (failed_status None)
    (Resolved tt) (Resolved tt) (fun _ => Resolved tt).

(** *** Leading integers *)

(** The specification speaks of the leading integer of a string. What that
    is, is written here from its words and from nothing in [parseInt], to
    be compared with what [parseNumber] returns. *)

(** The text [rest] does not go on with a digit. *)
Definition stops (digit : N -> bool) (rest : jsstring) : Prop :=
  match rest with
  | c :: _ => digit c = false
  | [] => True
  end.

(** [body] starts with a numeral that writes [v]: hexadecimal digits after
    ["0x"] or ["0X"], or else decimal digits; the numeral is the longest
    run of digits there. *)
Definition Numeral (body : jsstring) (v : Z) : Prop :=
  (exists x hs rest,
      body = 48%N :: x :: hs ++ rest
      /\ (x = 120%N \/ x = 88%N)
      /\ hs <> []
      /\ forallb isHexDigit hs = true
      /\ stops isHexDigit rest
      /\ v = hexValue hs)
  \/ (exists ds rest,
         body = ds ++ rest
         /\ hexPrefixed body = false
         /\ ds <> []
         /\ forallb isDecimalDigit ds = true
         /\ stops isDecimalDigit rest
         /\ v = decimalValue ds).

(** The leading integer of a string: after white space and at most one
    sign, a numeral; the integer is the numeral's value, negated after a
    minus sign. *)
Definition LeadingInteger (s : jsstring) (n : Z) : Prop :=
  exists ws sg body v,
    s = ws ++ sg ++ body
    /\ forallb isWhiteSpace ws = true
    /\ (((sg = [] \/ sg = js "+") /\ n = v) \/ (sg = js "-" /\ n = (- v)%Z))
    /\ Numeral body v.

(** The integer a Number is, when it is one. *)
Definition integerOf (x : Number) : option Z :=
  match x with
  | S754_zero _ => Some 0%Z
  | S754_finite s m e =>
      let v := if s then Zneg m else Zpos m in
      if (0 <=? e)%Z then Some (v * 2 ^ e)%Z
      else if (Zpos m mod 2 ^ (- e) =? 0)%Z then Some (v / 2 ^ (- e))%Z
      else None
  | _ => None
  end.

(** The steps of [parseInt] before the Number is made: the sign, and the
    integer that the digits write. *)
Definition signed (S0 : jsstring) : Z * jsstring :=
  match S0 with
  | c :: r =>
      if N.eqb c 45 then ((-1)%Z, r)
      else if N.eqb c 43 then (1%Z, r)
      else (1%Z, S0)
  | [] => (1%Z, S0)
  end.

Definition numeralOf (S1 : jsstring) : option Z :=
  let '(R, S2) :=
    if hexPrefixed S1 then (16%Z, skipn 2 S1) else (10%Z, S1) in
  match leadingDigits R S2 with
  | [] => None
  | ds => Some (digitsValue R ds)
  end.

Definition readInteger (s : jsstring) : option (Z * Z) :=
  let (sign, S1) := signed (trimStart s) in
  match numeralOf S1 with
  | Some mathInt => Some (sign, mathInt)
  | None => None
  end.

(** The Number [parseInt] makes of a sign and an integer. *)
Definition numberOf (r : option (Z * Z)) : Number :=
  match r with
  | None => S754_nan
  | Some (sign, mathInt) =>
      if (mathInt =? 0)%Z then S754_zero (sign <? 0)%Z
      else toNumber (sign * mathInt)
  end.

(** *** A provider that refuses to create the stack *)

Definition insufficient_capabilities : Exn :=
  {| code := Some (js "InsufficientCapabilitiesException");
     message := js "Requires capabilities : [CAPABILITY_NAMED_IAM]" |}.

(** No stack of that name, and the creation request is rejected. *)
Definition refused_creation_provider : CloudFormation.t :=
  scripted (Rejected does_not_exist) (Rejected insufficient_capabilities)
    created_change_set (failed_status None) (Resolved tt) (Resolved tt)
    (fun _ => Resolved tt).

(* ================================================================= *)
(** ** Strings *)

Lemma str_eqb_eq (a b : jsstring) : str_eqb a b = true <-> a = b.
Proof.
  revert b; induction a as [|x a IH]; intros [|y b]; simpl;
    try (split; [discriminate | discriminate]); try tauto.
  rewrite andb_true_iff, N.eqb_eq, IH.
  split; [intros [-> ->]; reflexivity | intros E; inversion E; auto].
Qed.

Lemma str_eqb_refl (a : jsstring) : str_eqb a a = true.
Proof. apply str_eqb_eq; reflexivity. Qed.

Lemma str_eqb_neq (a b : jsstring) : str_eqb a b = false <-> a <> b.
Proof.
  rewrite <- str_eqb_eq. destruct (str_eqb a b); split; congruence.
Qed.


Lemma startsWith_spec (p s : jsstring) :
  startsWith p s = true <-> exists r, s = p ++ r.
Proof.
  revert s; induction p as [|a p IH]; intros s; simpl.
  - split; [exists s; reflexivity | reflexivity].
  - destruct s as [|b s].
    + split; [discriminate | intros [r E]; discriminate].
    + rewrite andb_true_iff, N.eqb_eq, IH. split.
      * intros [-> [r ->]]; exists r; reflexivity.
      * intros [r E]; inversion E; subst.
        split; [reflexivity | exists r; reflexivity].
Qed.

(** [includes] is the substring test. *)
Lemma includes_spec (s p : jsstring) :
  includes s p = true <-> exists a b, s = a ++ p ++ b.
Proof.
  induction s as [|c s IH].
  - simpl. rewrite orb_false_r, startsWith_spec. split.
    + intros [r E]; exists [], r; exact E.
    + intros [a [b E]]. destruct a; [exists b; exact E | discriminate].
  - cbn [includes]. rewrite orb_true_iff, startsWith_spec, IH. split.
    + intros [[r E] | [a [b E]]].
      * exists [], r; exact E.
      * exists (c :: a), b; rewrite E; reflexivity.
    + intros [a [b E]]. destruct a as [|c' a].
      * left; exists b; exact E.
      * right; inversion E; subst; exists a, b; reflexivity.
Qed.


Lemma split_without (sep : N) (s : jsstring) :
  ~ In sep s -> split sep s = (s, []).
Proof.
  induction s as [|c s IH]; simpl; intros H; [reflexivity|].
  rewrite IH by tauto.
  destruct (N.eqb_spec c sep) as [->|_]; [tauto | reflexivity].
Qed.

Lemma split_at_first (sep : N) (a b : jsstring) :
  ~ In sep a -> split sep (a ++ sep :: b) = (a, pieces (split sep b)).
Proof.
  induction a as [|c a IH]; simpl; intros H.
  - destruct (split sep b) as [p ps]; rewrite N.eqb_refl; reflexivity.
  - rewrite IH by tauto.
    destruct (N.eqb_spec c sep) as [->|_]; [tauto | reflexivity].
Qed.

(** Splitting a joined list of separator-free pieces gives the pieces back. *)
Lemma split_join (sep : N) (p : jsstring) (ps : list jsstring) :
  Forall (fun x => ~ In sep x) (p :: ps) ->
  pieces (split sep (join [sep] (p :: ps))) = p :: ps.
Proof.
  revert p; induction ps as [|q ps IH]; intros p H.
  - simpl. inversion H; subst. rewrite split_without by assumption. reflexivity.
  - inversion H; subst.
    change (join [sep] (p :: q :: ps)) with (p ++ sep :: join [sep] (q :: ps)).
    rewrite split_at_first by assumption.
    rewrite IH by assumption. reflexivity.
Qed.

(* ================================================================= *)
(** ** The [Map] *)

Module JsMapFacts.
Section WithValues.
Variable V : Type.
Implicit Types (m : JsMap.t V) (k : jsstring) (v : V).

Lemma get_set_same k v m : JsMap.get k (JsMap.set k v m) = Some v.
Proof.
induction m as [|[k' v'] m IH]; simpl.
- rewrite str_eqb_refl; reflexivity.
- destruct (str_eqb k k') eqn:E; simpl.
  + rewrite str_eqb_refl; reflexivity.
  + rewrite E; exact IH.
Qed.

Lemma get_set_other k k' v m :
k' <> k -> JsMap.get k' (JsMap.set k v m) = JsMap.get k' m.
Proof.
intros N. induction m as [|[k0 v0] m IH]; simpl.
- apply str_eqb_neq in N; rewrite N; reflexivity.
- destruct (str_eqb k k0) eqn:E; simpl.
  + apply str_eqb_eq in E; subst k0.
    apply str_eqb_neq in N; rewrite N; reflexivity.
  + rewrite IH; reflexivity.
Qed.

Lemma get_none_iff k m : JsMap.get k m = None <-> ~ In k (JsMap.keys m).
Proof.
induction m as [|[k' v'] m IH]; simpl; [tauto|].
destruct (str_eqb k k') eqn:E.
- apply str_eqb_eq in E; subst; split; [discriminate | tauto].
- apply str_eqb_neq in E. rewrite IH.
  split; [intros H [?|?]; congruence | tauto].
Qed.

Lemma get_in k v m : JsMap.get k m = Some v -> In (k, v) m.
Proof.
induction m as [|[k' v'] m IH]; simpl; [discriminate|].
destruct (str_eqb k k') eqn:E.
- apply str_eqb_eq in E; subst; intros [= ->]; left; reflexivity.
- intros H; right; auto.
Qed.

(** A key already present keeps its place; a new key is appended. *)
Lemma keys_set k v m :
JsMap.keys (JsMap.set k v m) =
if mem k (JsMap.keys m) then JsMap.keys m else JsMap.keys m ++ [k].
Proof.
induction m as [|[k' v'] m IH]; simpl; [reflexivity|].
destruct (str_eqb k k') eqn:E; simpl.
- apply str_eqb_eq in E; subst; reflexivity.
- fold (JsMap.keys (JsMap.set k v m)). rewrite IH.
  fold (JsMap.keys m). fold (mem k (JsMap.keys m)).
  destruct (mem k (JsMap.keys m)); reflexivity.
Qed.
End WithValues.
End JsMapFacts.

Lemma mem_In (k : jsstring) (l : list jsstring) : mem k l = true <-> In k l.
Proof.
  unfold mem. rewrite existsb_exists. split.
  - intros [x [H E]]; apply str_eqb_eq in E; subst; exact H.
  - intros H; exists k; split; [exact H | apply str_eqb_refl].
Qed.

Lemma mem_false (k : jsstring) (l : list jsstring) :
  mem k l = false <-> ~ In k l.
Proof.
  rewrite <- mem_In. destruct (mem k l); split; congruence.
Qed.

(* ================================================================= *)
(** ** parseParameters *)

Lemma add_parameter_pair (m : JsMap.t (option jsstring)) (p : jsstring) :
  add_parameter m p = add_pair m (key_value p).
Proof.
  unfold add_parameter, add_pair, accumulate.
  destruct (key_value p) as [key value]; reflexivity.
Qed.

Lemma parameters_of_pairs (s : jsstring) :
  parameters_of s = fold_left add_pair (pairs s) (JsMap.empty _).
Proof.
  unfold parameters_of, pairs.
  generalize (JsMap.empty (option jsstring)).
  induction (pieces (split comma s)) as [|p l IH]; intros m; simpl.
  - reflexivity.
  - rewrite add_parameter_pair; apply IH.
Qed.

Lemma parseParameters_stored (s : jsstring) :
  parseParameters s =
  List.map
    (fun key => {| ParameterKey := key;
                   ParameterValue := stored key (parameters_of s) |})
    (JsMap.keys (parameters_of s)).
Proof. reflexivity. Qed.

(** The value stored under [k] only depends on the pieces that carry [k]. *)
Lemma stored_fold (k : jsstring) (ps : list (jsstring * option jsstring)) :
  forall m,
    stored k (fold_left add_pair ps m) =
    fold_left accumulate (values_of k ps) (stored k m).
Proof.
  induction ps as [|[k' v'] ps IH]; intros m; simpl; [reflexivity|].
  rewrite IH. unfold values_of; simpl.
  destruct (str_eqb k' k) eqn:E; simpl.
  - apply str_eqb_eq in E; subst k'.
    f_equal. unfold stored, add_pair at 1; simpl.
    rewrite JsMapFacts.get_set_same. reflexivity.
  - apply str_eqb_neq in E.
    f_equal. unfold stored, add_pair at 1; simpl.
    rewrite JsMapFacts.get_set_other by congruence. reflexivity.
Qed.

Lemma join_merge (sep a b : jsstring) (l : list jsstring) :
  join sep ((a ++ sep ++ b) :: l) = join sep (a :: b :: l).
Proof.
  destruct l as [|c l]; simpl; [reflexivity|].
  rewrite <- !app_assoc. reflexivity.
Qed.

(** Once the stored value is a non-empty string, every later value is
    appended after a comma. *)
Lemma accumulate_nonempty (vs : list (option jsstring)) :
  forall c p,
    fold_left accumulate vs (Some (c :: p)) =
    Some (join [comma] ((c :: p) :: List.map value_text vs)).
Proof.
  induction vs as [|v vs IH]; intros c p; [reflexivity|].
  cbn [fold_left accumulate List.map].
  unfold join_pair. cbn [app]. rewrite IH.
  f_equal.
  change (c :: p ++ comma :: match v with Some v0 => v0 | None => [] end)
    with ((c :: p) ++ [comma] ++ value_text v).
  apply join_merge.
Qed.

Lemma filter_filter {A} (f g : A -> bool) (l : list A) :
  filter f (filter g l) = filter (fun x => g x && f x) l.
Proof.
  induction l as [|x l IH]; simpl; [reflexivity|].
  destruct (g x); simpl; [destruct (f x)|]; rewrite ?IH; reflexivity.
Qed.

Lemma keys_fold (ps : list (jsstring * option jsstring)) :
  forall m,
    JsMap.keys (fold_left add_pair ps m) =
    JsMap.keys m ++
    filter (fun k => negb (mem k (JsMap.keys m)))
      (first_seen (List.map fst ps)).
Proof.
  induction ps as [|[k v] ps IH]; intros m; simpl.
  - rewrite app_nil_r; reflexivity.
  - rewrite IH. unfold add_pair; simpl.
    rewrite JsMapFacts.keys_set.
    rewrite filter_filter.
    destruct (mem k (JsMap.keys m)) eqn:E; simpl.
    + f_equal. apply filter_ext_in. intros x _.
      destruct (str_eqb x k) eqn:Ex; simpl; [|reflexivity].
      apply str_eqb_eq in Ex; subst x. rewrite E; reflexivity.
    + rewrite <- app_assoc; simpl. do 2 f_equal.
      apply filter_ext_in. intros x _.
      unfold mem. rewrite existsb_app; simpl.
      rewrite orb_false_r, negb_orb, andb_comm. reflexivity.
Qed.

Lemma first_seen_In (k : jsstring) (ks : list jsstring) :
  In k (first_seen ks) <-> In k ks.
Proof.
  induction ks as [|k' ks IH]; simpl; [tauto|].
  rewrite filter_In, IH, negb_true_iff, str_eqb_neq.
  split; [tauto|].
  intros [->|H]; [left; reflexivity|].
  destruct (list_eq_dec N.eq_dec k k'); [left; congruence | right; tauto].
Qed.

Lemma first_seen_NoDup (ks : list jsstring) : NoDup (first_seen ks).
Proof.
  induction ks as [|k ks IH]; simpl; constructor.
  - rewrite filter_In, negb_true_iff, str_eqb_neq. tauto.
  - apply NoDup_filter; exact IH.
Qed.

Lemma filter_absent (k : jsstring) (l : list jsstring) :
  ~ In k l -> filter (fun x => str_eqb x k) l = [].
Proof.
  induction l as [|x l IH]; simpl; intros H; [reflexivity|].
  destruct (str_eqb x k) eqn:E.
  - apply str_eqb_eq in E; tauto.
  - apply IH; tauto.
Qed.

Lemma filter_only (k : jsstring) (l : list jsstring) :
  NoDup l -> In k l -> filter (fun x => str_eqb x k) l = [k].
Proof.
  induction 1 as [|x l Hx Hl IH]; simpl; [tauto|].
  intros [->|H].
  - rewrite str_eqb_refl, filter_absent by assumption. reflexivity.
  - destruct (str_eqb x k) eqn:E.
    + apply str_eqb_eq in E; subst; tauto.
    + auto.
Qed.

Lemma filter_map_comm {A B} (f : A -> B) (p : B -> bool) (l : list A) :
  filter p (List.map f l) = List.map f (filter (fun x => p (f x)) l).
Proof.
  induction l as [|x l IH]; simpl; [reflexivity|].
  destruct (p (f x)); simpl; rewrite IH; reflexivity.
Qed.

Lemma keys_parameters_of (s : jsstring) :
  JsMap.keys (parameters_of s) = first_seen (List.map fst (pairs s)).
Proof.
  rewrite parameters_of_pairs, keys_fold.
  cbn [JsMap.keys JsMap.empty List.map app mem existsb negb].
  generalize (first_seen (List.map fst (pairs s))).
  induction l as [|x l IH]; simpl; [reflexivity | rewrite IH; reflexivity].
Qed.

(** The keys of the result, in order: each key of the input once, in the
    order of first occurrence. *)
Lemma parseParameters_keys (s : jsstring) :
  List.map ParameterKey (parseParameters s) =
  first_seen (List.map fst (pairs s)).
Proof.
  rewrite parseParameters_stored, map_map; simpl.
  rewrite map_id. apply keys_parameters_of.
Qed.

Lemma values_of_In (k : jsstring) (ps : list (jsstring * option jsstring)) :
  values_of k ps <> [] -> In k (List.map fst ps).
Proof.
  unfold values_of. induction ps as [|[k' v] ps IH]; simpl; [congruence|].
  destruct (str_eqb k' k) eqn:E.
  - apply str_eqb_eq in E; subst; auto.
  - auto.
Qed.

(** A key of the input has exactly one entry, which holds the stored value. *)
Lemma entries_for_key (k : jsstring) (s : jsstring) :
  In k (List.map fst (pairs s)) ->
  entries_for k (parseParameters s) =
  [ {| ParameterKey := k;
       ParameterValue :=
         fold_left accumulate (values_of k (pairs s)) None |} ].
Proof.
  intros H. unfold entries_for.
  rewrite parseParameters_stored, filter_map_comm; simpl.
  rewrite keys_parameters_of.
  rewrite filter_only
    by (try apply first_seen_NoDup; apply first_seen_In; exact H).
  simpl. rewrite parameters_of_pairs, stored_fold. reflexivity.
Qed.

(** C4, as stated, fails when the first value of a repeated key is empty:
    for ["A=,A=2"] the key [A] has the empty value and then ["2"], whose
    concatenation is [",2"], but the entry holds ["2"]: the stored empty
    string is falsy and is replaced, not extended. *)
Lemma parseParameters_empty_first_value_replaced :
  repeated (js "A") (js "A=,A=2")
  /\ values_of (js "A") (pairs (js "A=,A=2")) = [Some []; Some (js "2")]
  /\ parseParameters (js "A=,A=2") =
     [ {| ParameterKey := js "A"; ParameterValue := Some (js "2") |} ]
  /\ ~ concatenated (js "A") (js "A=,A=2").
Proof.
  split; [unfold repeated; vm_compute; lia|].
  split; [reflexivity|].
  split; [reflexivity|].
  unfold concatenated. vm_compute. discriminate.
Qed.

(** C4 (amended). For every parameter-override string and every key whose
    first value in it is a non-empty string (in particular a key that comes
    several times), [parseParameters] yields exactly one entry for the key;
    its value is the concatenation, with commas, of all the values of the
    key in encounter order, a piece without ['='] contributing the empty
    text; and the entries of the result come in first-seen key order. *)
Theorem parseParameters_concatenates_repeated_key :
  forall (s k v : jsstring) (vs : list (option jsstring)),
    values_of k (pairs s) = Some v :: vs ->
    v <> [] ->
    concatenated k s /\ first_seen_order s.
Proof.
  intros s k v vs Hv Hne. split.
  - unfold concatenated.
    rewrite entries_for_key by (apply values_of_In; rewrite Hv; discriminate).
    rewrite Hv. destruct v as [|c p]; [congruence|].
    cbn [fold_left accumulate]. rewrite accumulate_nonempty. reflexivity.
  - apply parseParameters_keys.
Qed.

Lemma parseParameters_concatenates_repeated_key_witness :
  values_of (js "A") (pairs (js "A=1,B=x,A=2")) = [Some (js "1"); Some (js "2")]
  /\ js "1" <> []
  /\ concatenated (js "A") (js "A=1,B=x,A=2")
  /\ first_seen_order (js "A=1,B=x,A=2").
Proof.
  split; [reflexivity|].
  split; [discriminate|].
  apply (@parseParameters_concatenates_repeated_key
           (js "A=1,B=x,A=2") (js "A") (js "1") [Some (js "2")]).
  - reflexivity.
  - discriminate.
Defined.

(* ================================================================= *)
(** ** getStack *)

Lemma isNotFound_spec (e : Exn) : isNotFound e = true <-> NotFoundError e.
Proof.
  unfold isNotFound, NotFoundError.
  rewrite andb_true_iff, includes_spec.
  destruct (code e) as [c|].
  - rewrite str_eqb_eq. split; intros [H1 H2]; split; congruence.
  - split; intros [H1 H2]; discriminate H1.
Qed.

Lemma getStack_run (cfn : CloudFormation.t) (name : jsstring) (h : Log) :
  getStack cfn name h =
  (match CloudFormation.describeStacks cfn h name with
   | Resolved stacks => Resolved (firstStack stacks)
   | Rejected e => if isNotFound e then Resolved None else Rejected e
   end,
   h ++ [DescribeStacks name]).
Proof.
  unfold getStack, bind, attempt, promise, ret, throw.
  destruct (CloudFormation.describeStacks cfn h name) as [stacks|e];
    [reflexivity|].
  destruct (isNotFound e); reflexivity.
Qed.

(** C3, as stated, fails in one direction: [getStack] also returns
    [undefined] when no error is raised, namely when the describe call
    succeeds with no stack in its response. *)
Lemma getStack_not_found_without_error :
  CloudFormation.describeStacks no_stacks_provider [] (js "MockStack") =
    Resolved {| DescribeStacksOutput.Stacks := Some [] |}
  /\ getStack no_stacks_provider (js "MockStack") [] =
     (Resolved None, [DescribeStacks (js "MockStack")]).
Proof. split; reflexivity. Qed.

(** C3 (amended). For every stack name, [getStack] returns the first stack
    of the provider's describe response when the call succeeds, which is
    [undefined] when the response has no stack; when the provider raises an
    error, it returns [undefined] exactly when the error's code is
    ['ValidationError'] and its message contains ['does not exist']; every
    other provider error is raised again unchanged. In each case the one
    request issued is the describe call. *)
Theorem getStack_outcomes :
  forall (cfn : CloudFormation.t) (name : jsstring) (h : Log),
    snd (getStack cfn name h) = h ++ [DescribeStacks name]
    /\ match CloudFormation.describeStacks cfn h name with
       | Resolved stacks =>
           fst (getStack cfn name h) =
           Resolved
             (match DescribeStacksOutput.Stacks stacks with
              | Some (first :: _) => Some first
              | _ => None
              end)
       | Rejected e =>
           (fst (getStack cfn name h) = Resolved None <-> NotFoundError e)
           /\ (~ NotFoundError e -> fst (getStack cfn name h) = Rejected e)
       end.
Proof.
  intros cfn name h. rewrite getStack_run. split; [reflexivity|].
  destruct (CloudFormation.describeStacks cfn h name) as [stacks|e]; simpl.
  - unfold firstStack.
    destruct (DescribeStacksOutput.Stacks stacks) as [[|first l]|]; reflexivity.
  - rewrite <- isNotFound_spec.
    destruct (isNotFound e);
      (split;
       [split; intros H; first [reflexivity | discriminate H] | congruence]).
Qed.

(* ================================================================= *)
(** ** getStackOutputs *)

(** The cases of the truthiness test on an output: each of the key and the
    value is a non-empty string, the empty string, or missing. *)
Ltac output_cases o :=
  destruct (Output.OutputKey o) as [[|?c ?k]|],
           (Output.OutputValue o) as [[|?d ?v]|].

Lemma add_output_present (m : JsMap.t jsstring) (o : Output.t) :
  present o = true ->
  add_output m o =
  JsMap.set (value_text (Output.OutputKey o))
    (value_text (Output.OutputValue o)) m.
Proof.
  unfold present, add_output, truthy.
  output_cases o;
    simpl; try discriminate; reflexivity.
Qed.

Lemma add_output_skipped (m : JsMap.t jsstring) (o : Output.t) :
  present o = false -> add_output m o = m.
Proof.
  unfold present, add_output, truthy.
  output_cases o;
    simpl; try discriminate; reflexivity.
Qed.

Lemma present_nonempty (o : Output.t) :
  present o = true ->
  value_text (Output.OutputKey o) <> []
  /\ value_text (Output.OutputValue o) <> [].
Proof.
  unfold present, truthy.
  output_cases o;
    simpl; try discriminate; split; discriminate.
Qed.

Lemma hasEmptyField_skipped (o : Output.t) :
  hasEmptyField o = true -> present o = false.
Proof.
  unfold present, hasEmptyField, truthy.
  output_cases o;
    simpl; try discriminate; reflexivity.
Qed.

(** Outputs that are skipped may as well be left out of the list. *)
Lemma fold_add_output_filter (keep : Output.t -> bool) (l : list Output.t) :
  (forall o, keep o = false -> present o = false) ->
  forall m,
    fold_left add_output l m = fold_left add_output (filter keep l) m.
Proof.
  intros Hkeep. induction l as [|o l IH]; intros m; simpl; [reflexivity|].
  destruct (keep o) eqn:E; simpl.
  - apply IH.
  - rewrite add_output_skipped by auto. apply IH.
Qed.

(** Looking a key up after the loop: the last present output under that
    key wins; without one, the map is as before. *)
Lemma get_fold_add_output (k : jsstring) (l : list Output.t) :
  forall m,
    JsMap.get k (fold_left add_output l m) =
    match last_output k l with
    | Some v => Some v
    | None => JsMap.get k m
    end.
Proof.
  unfold last_output.
  induction l as [|o l IH] using rev_ind; intros m; [reflexivity|].
  rewrite fold_left_app, rev_app_distr. cbn [fold_left rev app find].
  destruct (present o) eqn:P; cbn [andb].
  - rewrite add_output_present by assumption.
    destruct (str_eqb (value_text (Output.OutputKey o)) k) eqn:E.
    + apply str_eqb_eq in E; subst k.
      apply JsMapFacts.get_set_same.
    + apply str_eqb_neq in E.
      rewrite JsMapFacts.get_set_other by congruence. apply IH.
  - rewrite add_output_skipped by assumption. apply IH.
Qed.

Lemma set_Forall {V} (P : jsstring * V -> Prop) (k : jsstring) (v : V)
    (m : JsMap.t V) :
  P (k, v) -> Forall P m -> Forall P (JsMap.set k v m).
Proof.
  intros Hkv. induction 1 as [|[k' v'] m H Hm IH]; simpl.
  - constructor; [assumption | constructor].
  - destruct (str_eqb k k'); constructor; assumption.
Qed.

Lemma fold_add_output_nonempty (l : list Output.t) :
  forall m,
    Forall (fun kv => fst kv <> [] /\ snd kv <> []) m ->
    Forall (fun kv => fst kv <> [] /\ snd kv <> [])
      (fold_left add_output l m).
Proof.
  induction l as [|o l IH]; intros m Hm; simpl; [assumption|].
  apply IH. destruct (present o) eqn:P.
  - rewrite add_output_present by assumption.
    apply set_Forall; [apply present_nonempty; assumption | assumption].
  - rewrite add_output_skipped by assumption. assumption.
Qed.

Lemma getStackOutputs_run (cfn : CloudFormation.t) (stackId : jsstring)
    (h : Log) :
  getStackOutputs cfn stackId h =
  (match fst (getStack cfn stackId h) with
   | Resolved (Some stack) =>
       Resolved (fold_left add_output (outputs_of stack) (JsMap.empty _))
   | Resolved None => Resolved (JsMap.empty _)
   | Rejected e => Rejected e
   end,
   h ++ [DescribeStacks stackId]).
Proof.
  unfold getStackOutputs, bind. rewrite getStack_run. cbn [fst].
  destruct (CloudFormation.describeStacks cfn h stackId) as [stacks|e].
  - destruct (firstStack stacks) as [stack|]; [|reflexivity].
    unfold outputs_of. destruct (Stack.Outputs stack); reflexivity.
  - destruct (isNotFound e); reflexivity.
Qed.

Lemma set_keys_NoDup {V} (k : jsstring) (v : V) (m : JsMap.t V) :
  NoDup (JsMap.keys m) -> NoDup (JsMap.keys (JsMap.set k v m)).
Proof.
  intros H. rewrite JsMapFacts.keys_set.
  destruct (mem k (JsMap.keys m)) eqn:E; [assumption|].
  apply mem_false in E.
  apply NoDup_app; [assumption | repeat constructor; simpl; tauto |].
  intros x Hx [->|[]]; tauto.
Qed.

Lemma fold_add_output_NoDup (l : list Output.t) :
  forall m,
    NoDup (JsMap.keys m) -> NoDup (JsMap.keys (fold_left add_output l m)).
Proof.
  induction l as [|o l IH]; intros m Hm; simpl; [assumption|].
  apply IH. destruct (present o) eqn:P.
  - rewrite add_output_present by assumption. apply set_keys_NoDup, Hm.
  - rewrite add_output_skipped by assumption. assumption.
Qed.

(** In a map, the entries are the successful lookups. *)
Lemma In_get {V} (k : jsstring) (v : V) (m : JsMap.t V) :
  NoDup (JsMap.keys m) -> (In (k, v) m <-> JsMap.get k m = Some v).
Proof.
  intros H. split; [|apply JsMapFacts.get_in].
  induction m as [|[k' v'] m IH]; simpl; [tauto|].
  inversion H as [|? ? Hk Hm]; subst.
  intros [E|Hin].
  - inversion E; subst. rewrite str_eqb_refl; reflexivity.
  - destruct (str_eqb k k') eqn:E; [|auto].
    apply str_eqb_eq in E; subst k'.
    exfalso; apply Hk. change k with (fst (k, v)). apply in_map, Hin.
Qed.

(** C7, as stated, fails on an output whose value is the empty string: it
    has a key and a value, and it is left out of the map. *)
Lemma getStackOutputs_leaves_out_empty_value :
  In {| Output.OutputKey := Some (js "Empty");
        Output.OutputValue := Some [] |}
     (outputs_of sample_stack)
  /\ getStack updating_provider (js "MockStack") [] =
     (Resolved (Some sample_stack), [DescribeStacks (js "MockStack")])
  /\ getStackOutputs updating_provider (js "MockStack") [] =
     (Resolved [(js "Url", js "https://x")],
      [DescribeStacks (js "MockStack")])
  /\ JsMap.get (js "Empty") [(js "Url", js "https://x")] = None.
Proof.
  split; [right; left; reflexivity|].
  split; [reflexivity|]. split; reflexivity.
Qed.

(** C7 (amended). For every stack identifier, [getStackOutputs] returns an
    empty map, and no error, when the stack lookup reports 'not found';
    when the lookup returns a stack, it returns a map that contains exactly
    the stack's output entries whose key and value are both present and
    non-empty, each such key mapped to its output value (that of the last
    such entry when a key comes again); entries with a missing or empty key
    or value are skipped. An error of the lookup is raised to the caller. *)
Theorem getStackOutputs_collects_present_outputs :
  forall (cfn : CloudFormation.t) (stackId : jsstring) (h : Log),
    match fst (getStack cfn stackId h) with
    | Resolved None =>
        fst (getStackOutputs cfn stackId h) = Resolved (JsMap.empty _)
    | Resolved (Some stack) =>
        exists outputs,
          fst (getStackOutputs cfn stackId h) = Resolved outputs
          /\ NoDup (JsMap.keys outputs)
          /\ (forall k v,
                In (k, v) outputs <->
                last_output k (outputs_of stack) = Some v)
          /\ outputs =
             fold_left add_output (filter present (outputs_of stack))
               (JsMap.empty _)
    | Rejected e => fst (getStackOutputs cfn stackId h) = Rejected e
    end.
Proof.
  intros cfn stackId h. rewrite getStackOutputs_run. cbn [fst].
  destruct (fst (getStack cfn stackId h)) as [[stack|]|e]; try reflexivity.
  eexists; split; [reflexivity|].
  assert (ND : NoDup
                 (JsMap.keys
                    (fold_left add_output (outputs_of stack)
                       (JsMap.empty jsstring)))).
  { apply fold_add_output_NoDup; constructor. }
  split; [exact ND|]. split.
  - intros k v. rewrite (In_get k v _ ND), get_fold_add_output.
    destruct (last_output k (outputs_of stack)); simpl;
      split; congruence.
  - apply fold_add_output_filter. intros o H; exact H.
Qed.

(** C10. [getStackOutputs] skips not only the outputs whose key or value is
    missing but also those whose key or value is the empty string: no key
    and no value of the returned map is empty, and the map is the one built
    from the stack's outputs with those entries taken out. *)
Theorem getStackOutputs_skips_empty_strings :
  forall (cfn : CloudFormation.t) (stackId : jsstring) (h h' : Log)
         (outputs : JsMap.t jsstring),
    getStackOutputs cfn stackId h = (Resolved outputs, h') ->
    (forall k v, In (k, v) outputs -> k <> [] /\ v <> [])
    /\ (forall stack,
          fst (getStack cfn stackId h) = Resolved (Some stack) ->
          (forall o,
             In o (outputs_of stack) -> hasEmptyField o = true ->
             ~ In (value_text (Output.OutputKey o),
                   value_text (Output.OutputValue o)) outputs)
          /\ outputs =
             fold_left add_output
               (filter (fun o => negb (hasEmptyField o)) (outputs_of stack))
               (JsMap.empty _)).
Proof.
  intros cfn stackId h h' outputs. rewrite getStackOutputs_run.
  intros E. inversion E as [[E1 E2]]; clear E E2.
  assert (NE : Forall (fun kv : jsstring * jsstring =>
                         fst kv <> [] /\ snd kv <> []) outputs).
  { destruct (fst (getStack cfn stackId h)) as [[stack|]|e];
      inversion E1; subst; [|constructor].
    apply fold_add_output_nonempty; constructor. }
  split.
  - intros k v Hin. rewrite Forall_forall in NE. exact (NE (k, v) Hin).
  - intros stack Hs. rewrite Hs in E1. inversion E1 as [E2]; clear E1.
    split.
    + intros o _ Ho Hin. rewrite E2 in Hin.
      rewrite Forall_forall in NE. destruct (NE _ Hin) as [Hk Hv].
      unfold hasEmptyField in Ho. simpl in Hk, Hv.
      destruct (Output.OutputKey o) as [[|c k]|],
               (Output.OutputValue o) as [[|d v]|];
        simpl in *; congruence.
    + apply fold_add_output_filter. intros o Ho.
      apply hasEmptyField_skipped. destruct (hasEmptyField o);
        [reflexivity | discriminate].
Qed.

Lemma getStackOutputs_skips_empty_strings_witness :
  getStackOutputs updating_provider (js "MockStack") [] =
    (Resolved [(js "Url", js "https://x")], [DescribeStacks (js "MockStack")])
  /\ (forall k v,
        In (k, v) [(js "Url", js "https://x")] -> k <> [] /\ v <> []).
Proof.
  split; [reflexivity|].
  exact (proj1
           (@getStackOutputs_skips_empty_strings updating_provider
              (js "MockStack") [] [DescribeStacks (js "MockStack")]
              [(js "Url", js "https://x")] eq_refl)).
Defined.

(* ================================================================= *)
(** ** Requests issued by a computation *)

(** A computation that leaves the log as it is. *)
Ltac no_request :=
  intros h; exists []; rewrite app_nil_r;
  split; [reflexivity | constructor].

Section Emits.
Variable P : Request -> Prop.

Lemma emits_ret {A} (a : A) : emits P (ret a).
Proof. no_request. Qed.

Lemma emits_throw {A} (e : Exn) : emits P (@throw A e).
Proof. no_request. Qed.

Lemma emits_lift {A} (o : Outcome A) : emits P (lift o).
Proof. no_request. Qed.

Lemma emits_promise {I O} (request : I -> Request)
    (method : Log -> I -> Outcome O) (input : I) :
  P (request input) -> emits P (promise request method input).
Proof.
  intros H h; exists [request input]; split;
    [reflexivity | constructor; [exact H | constructor]].
Qed.

Lemma emits_attempt {A} (m : Async A) : emits P m -> emits P (attempt m).
Proof.
  intros H h. destruct (H h) as [l [E Hl]]. exists l. split; [|exact Hl].
  unfold attempt. destruct (m h); exact E.
Qed.

Lemma emits_bind {A B} (m : Async A) (k : A -> Async B) :
  emits P m -> (forall a, emits P (k a)) -> emits P (bind m k).
Proof.
  intros Hm Hk h. destruct (Hm h) as [l [E Hl]].
  unfold bind. destruct (m h) as [[a|e] h1]; simpl in E; subst h1.
  - destruct (Hk a (h ++ l)) as [l' [E' Hl']].
    exists (l ++ l'). rewrite app_assoc. split; [exact E'|].
    apply Forall_app; split; assumption.
  - exists l; split; [reflexivity | exact Hl].
Qed.
End Emits.

(** A request that names the change set of the parameters at hand. *)
Ltac names_change_set :=
  apply emits_promise; simpl; intros n [= <-]; reflexivity.

Lemma emits_genCfnUrl (P : Request -> Prop) (rt : Runtime.t)
    (stackArn changeSetArn : option jsstring) :
  (forall r, P (HttpPost r)) -> emits P (genCfnUrl rt stackArn changeSetArn).
Proof.
  intros H. unfold genCfnUrl.
  apply emits_bind; [apply emits_lift | intros stackId].
  apply emits_bind; [apply emits_lift | intros changeSetId].
  apply emits_bind; [apply emits_promise, H | intros short; apply emits_ret].
Qed.

(** The requests of [cleanupChangeSet] that name a change set name the one
    of [params]. *)
Lemma emits_cleanupChangeSet (cfn : CloudFormation.t) (stack : Stack.t)
    (params : CreateChangeSetInput.t) (noEmpty noDelete : bool) :
  emits
    (fun r =>
       forall n, changeSetName r = Some n ->
                 n = CreateChangeSetInput.ChangeSetName params)
    (cleanupChangeSet cfn stack params noEmpty noDelete).
Proof.
  unfold cleanupChangeSet.
  apply emits_bind;
    [names_change_set | intros status].
  destruct (isFailed _); [|apply emits_ret].
  apply emits_bind.
  - destruct (negb noDelete); [|apply emits_ret].
    names_change_set.
  - intros _. destruct (noEmpty && _); [apply emits_ret | apply emits_throw].
Qed.

(** A computation that starts with a request logs it first. *)
Lemma bind_promise_requests (P : Request -> Prop) {I O B}
    (request : I -> Request) (method : Log -> I -> Outcome O) (input : I)
    (k : O -> Async B) :
  (forall a, emits P (k a)) ->
  forall h, exists rest,
    snd (bind (promise request method input) k h) =
    h ++ request input :: rest
    /\ Forall P rest.
Proof.
  intros Hk h. unfold bind, promise.
  destruct (method h input) as [a|e].
  - destruct (Hk a (h ++ [request input])) as [l [E Hl]].
    exists l. rewrite E, <- app_assoc. split; [reflexivity | exact Hl].
  - exists []. split; [reflexivity | constructor].
Qed.

(** [updateStack] first creates the change set; every later request that
    names a change set names the one of [params]. *)
Lemma updateStack_requests (rt : Runtime.t) (cfn : CloudFormation.t)
    (stack : Stack.t) (params : CreateChangeSetInput.t)
    (noEmpty noExecute noDelete : bool) (h : Log) :
  exists rest,
    snd (updateStack rt cfn stack params noEmpty noExecute noDelete h) =
    h ++ CreateChangeSet params :: rest
    /\ Forall
         (fun r =>
            forall n, changeSetName r = Some n ->
                      n = CreateChangeSetInput.ChangeSetName params)
         rest.
Proof.
  unfold updateStack. apply bind_promise_requests. intros cset.
  apply emits_bind.
  - apply emits_attempt. names_change_set.
  - intros [[]|e]; [|apply emits_cleanupChangeSet].
    destruct noExecute.
    + apply emits_bind; [|intros _; apply emits_ret].
      apply emits_genCfnUrl; simpl; intros r n H; discriminate H.
    + apply emits_bind;
        [names_change_set | intros _].
      apply emits_bind; [|intros _; apply emits_ret].
      apply emits_promise; simpl; intros n H; discriminate H.
Qed.

(* ================================================================= *)
(** ** deployStack *)

Lemma deployStack_run (rt : Runtime.t) (cfn : CloudFormation.t)
    (params : CreateStackInput.t) (noEmpty noExecute noDelete : bool)
    (h : Log) :
  deployStack rt cfn params noEmpty noExecute noDelete h =
  let name := CreateStackInput.StackName params in
  let h1 := h ++ [DescribeStacks name] in
  match fst (getStack cfn name h) with
  | Resolved None =>
      match CloudFormation.createStack cfn h1 params with
      | Resolved stack =>
          let h2 := h ++ [DescribeStacks name; CreateStack params] in
          let h3 :=
            h ++ [DescribeStacks name; CreateStack params;
                  WaitFor (stackCreateComplete name)] in
          match CloudFormation.waitFor cfn h2 (stackCreateComplete name) with
          | Resolved _ => (Resolved (CreateStackOutput.StackId stack), h3)
          | Rejected e => (Rejected e, h3)
          end
      | Rejected e =>
          (Rejected e, h ++ [DescribeStacks name; CreateStack params])
      end
  | Resolved (Some stack) =>
      updateStack rt cfn stack (changeSetInput params) noEmpty noExecute
        noDelete h1
  | Rejected e => (Rejected e, h1)
  end.
Proof.
  unfold deployStack, bind at 1. rewrite getStack_run. cbn [fst].
  destruct (match CloudFormation.describeStacks cfn h _ with
            | Resolved stacks => _ | Rejected e => _ end)
    as [[stack|]|e]; try reflexivity.
  unfold bind, promise, ret. cbv zeta.
  destruct (CloudFormation.createStack cfn _ params) as [created|e].
  - rewrite <- !app_assoc. cbn [app].
    destruct (CloudFormation.waitFor cfn _ _) as [[]|e]; reflexivity.
  - rewrite <- !app_assoc. reflexivity.
Qed.

(** C2, as stated, fails when the provider rejects the creation request:
    the lookup reports no stack, yet [deployStack] waits for no signal and
    returns no identifier; it raises the error of the request. *)
Lemma deployStack_raises_creation_error :
  fst (getStack refused_creation_provider (js "MockStack") []) = Resolved None
  /\ deployStack plain_runtime refused_creation_provider sample_params
       false false false [] =
     (Rejected insufficient_capabilities,
      [DescribeStacks (js "MockStack"); CreateStack sample_params]).
Proof. split; reflexivity. Qed.

(** C2 (amended). For every deployment where the stack lookup reports the
    stack as nonexistent, [deployStack] issues exactly one stack-creation
    request and never a change-set operation; when the provider accepts
    the creation request it waits for the provider's create-complete
    signal, and when that wait succeeds it returns the identifier of the
    newly created stack. A creation request or a wait that the provider
    rejects is raised to the caller, and after a rejected creation request
    no wait is issued. *)
Theorem deployStack_creates_absent_stack :
  forall (rt : Runtime.t) (cfn : CloudFormation.t)
         (params : CreateStackInput.t) (noEmpty noExecute noDelete : bool)
         (h : Log),
    let name := CreateStackInput.StackName params in
    let run := deployStack rt cfn params noEmpty noExecute noDelete h in
    fst (getStack cfn name h) = Resolved None ->
    exists issued,
      snd run = h ++ issued
      /\ List.length (filter isCreateStack issued) = 1
      /\ existsb isChangeSetRequest issued = false
      /\ match
           CloudFormation.createStack cfn (h ++ [DescribeStacks name]) params
         with
         | Resolved stack =>
             issued =
             [DescribeStacks name; CreateStack params;
              WaitFor (stackCreateComplete name)]
             /\ match
                  CloudFormation.waitFor cfn
                    (h ++ [DescribeStacks name; CreateStack params])
                    (stackCreateComplete name)
                with
                | Resolved _ =>
                    fst run = Resolved (CreateStackOutput.StackId stack)
                | Rejected e => fst run = Rejected e
                end
         | Rejected e =>
             issued = [DescribeStacks name; CreateStack params]
             /\ fst run = Rejected e
         end.
Proof.
  intros rt cfn params noEmpty noExecute noDelete h name run H.
  subst run. rewrite deployStack_run. cbv zeta. fold name. rewrite H.
  destruct (CloudFormation.createStack cfn _ params) as [stack|e].
  - exists [DescribeStacks name; CreateStack params;
            WaitFor (stackCreateComplete name)].
    destruct (CloudFormation.waitFor cfn _ _) as [[]|e]; simpl; auto.
  - exists [DescribeStacks name; CreateStack params]. simpl; auto.
Qed.

Lemma deployStack_creates_absent_stack_witness :
  fst (getStack absent_stack_provider (js "MockStack") []) = Resolved None
  /\ snd (deployStack plain_runtime absent_stack_provider sample_params
            false false false []) =
     [DescribeStacks (js "MockStack"); CreateStack sample_params;
      WaitFor (stackCreateComplete (js "MockStack"))]
  /\ fst (deployStack plain_runtime absent_stack_provider sample_params
            false false false []) =
     Resolved (Some (js "arn:stack/MockStack/2")).
Proof.
  split; [reflexivity|].
  destruct (@deployStack_creates_absent_stack plain_runtime
              absent_stack_provider sample_params false false false []
              eq_refl)
    as [issued [E1 [_ [_ [E2 E3]]]]].
  split; [rewrite E1, E2; reflexivity | exact E3].
Defined.

(* ================================================================= *)
(** ** cleanupChangeSet and updateStack *)

Lemma isFailed_spec (Status : option jsstring) :
  isFailed Status = true <-> Status = Some (js "FAILED").
Proof.
  unfold isFailed. destruct Status as [s|].
  - rewrite str_eqb_eq. split; congruence.
  - split; discriminate.
Qed.

Lemma isKnownError_spec (StatusReason : option jsstring) :
  isKnownError StatusReason = true <-> KnownReason StatusReason.
Proof.
  unfold isKnownError, KnownReason, knownErrorMessages.
  cbn [existsb]. rewrite orb_false_r, orb_true_iff.
  destruct StatusReason as [reason|].
  - rewrite !includes_spec. split.
    + intros [[a [b E]]|[a [b E]]]; exists reason, a, b; auto.
    + intros [r [a [b [[= <-] [E|E]]]]]; [left | right]; exists a, b; exact E.
  - split.
    + intros [H|H]; discriminate H.
    + intros [r [a [b [H _]]]]; discriminate H.
Qed.

Lemma cleanupChangeSet_run (cfn : CloudFormation.t) (stack : Stack.t)
    (params : CreateChangeSetInput.t) (noEmpty noDelete : bool) (h : Log) :
  cleanupChangeSet cfn stack params noEmpty noDelete h =
  let ref := ref_of params in
  match CloudFormation.describeChangeSet cfn h ref with
  | Resolved status =>
      if isFailed (DescribeChangeSetOutput.Status status) then
        let decided :=
          verdict stack noEmpty (DescribeChangeSetOutput.StatusReason status)
        in
        if noDelete then (decided, h ++ [DescribeChangeSet ref])
        else
          match
            CloudFormation.deleteChangeSet cfn
              (h ++ [DescribeChangeSet ref]) ref
          with
          | Resolved _ =>
              (decided, h ++ [DescribeChangeSet ref; DeleteChangeSet ref])
          | Rejected e =>
              (Rejected e,
               h ++ [DescribeChangeSet ref; DeleteChangeSet ref])
          end
      else (Resolved None, h ++ [DescribeChangeSet ref])
  | Rejected e => (Rejected e, h ++ [DescribeChangeSet ref])
  end.
Proof.
  unfold cleanupChangeSet, bind, promise, ret, throw, verdict. cbv zeta.
  destruct (CloudFormation.describeChangeSet cfn h _) as [status|e];
    [|reflexivity].
  destruct (isFailed _); [|reflexivity].
  destruct noDelete; cbn [negb].
  - destruct (noEmpty && _); reflexivity.
  - destruct (CloudFormation.deleteChangeSet cfn _ _) as [[]|e];
      rewrite <- !app_assoc; cbn [app]; [|reflexivity].
    destruct (noEmpty && _); reflexivity.
Qed.

(** When the wait for the creation of the change set fails, [updateStack]
    hands over to [cleanupChangeSet]. *)
Lemma updateStack_wait_failed (rt : Runtime.t) (cfn : CloudFormation.t)
    (stack : Stack.t) (params : CreateChangeSetInput.t)
    (noEmpty noExecute noDelete : bool) (h : Log)
    (cset : CreateChangeSetOutput.t) (e : Exn) :
  CloudFormation.createChangeSet cfn h params = Resolved cset ->
  CloudFormation.waitFor cfn (h ++ [CreateChangeSet params])
    (changeSetCreateComplete (ref_of params)) = Rejected e ->
  updateStack rt cfn stack params noEmpty noExecute noDelete h =
  cleanupChangeSet cfn stack params noEmpty noDelete
    (h ++ [CreateChangeSet params;
           WaitFor (changeSetCreateComplete (ref_of params))]).
Proof.
  intros Hc Hw. unfold updateStack, bind, promise, attempt.
  rewrite Hc, Hw. rewrite <- !app_assoc. reflexivity.
Qed.

(** C1, as stated, fails when the failed change set cannot be deleted: the
    wait fails, the status is [FAILED], empty change sets count as a
    success and the reason is a known one, yet [updateStack] raises the
    error of the delete request instead of returning the identifier. *)
Lemma updateStack_raises_delete_error :
  let reason := js "No updates are to be performed" in
  let cfn := empty_change_set_provider (Some reason) (Rejected throttled) in
  let params := changeSetInput sample_params in
  CloudFormation.waitFor cfn [CreateChangeSet params]
    (changeSetCreateComplete (ref_of params)) = Rejected wait_failed
  /\ CloudFormation.describeChangeSet cfn
       [CreateChangeSet params;
        WaitFor (changeSetCreateComplete (ref_of params))]
       (ref_of params) = failed_status (Some reason)
  /\ KnownReason (Some reason)
  /\ updateStack plain_runtime cfn sample_stack params true false false [] =
     (Rejected throttled,
      [CreateChangeSet params;
       WaitFor (changeSetCreateComplete (ref_of params));
       DescribeChangeSet (ref_of params);
       DeleteChangeSet (ref_of params)]).
Proof.
  cbv zeta. split; [reflexivity|]. split; [reflexivity|]. split.
  - exists (js "No updates are to be performed"), [], [].
    split; [reflexivity | left; reflexivity].
  - reflexivity.
Qed.

(** C1 (amended). For every deployment against an existing stack where the
    wait for the creation of the change set fails, the fetched status is
    [FAILED] and the deletion of the change set, attempted unless
    [noDeleteFailedChangeSet] is set, succeeds: if [noEmptyChangeSet] is set
    and the status reason contains one of the two known messages,
    [updateStack] returns the identifier of the existing stack without
    raising an error; if the reason contains neither or the flag is not
    set, it raises an error whose message is ["Failed to create Change
    Set: "] followed by the provider's reason (by ["undefined"] when the
    provider gave none). *)
Theorem updateStack_failed_change_set :
  forall (rt : Runtime.t) (cfn : CloudFormation.t) (stack : Stack.t)
         (params : CreateChangeSetInput.t)
         (noEmpty noExecute noDelete : bool) (h : Log)
         (cset : CreateChangeSetOutput.t) (e : Exn)
         (status : DescribeChangeSetOutput.t),
    let ref := ref_of params in
    let reason := DescribeChangeSetOutput.StatusReason status in
    let run := updateStack rt cfn stack params noEmpty noExecute noDelete h in
    CloudFormation.createChangeSet cfn h params = Resolved cset ->
    CloudFormation.waitFor cfn (h ++ [CreateChangeSet params])
      (changeSetCreateComplete ref) = Rejected e ->
    CloudFormation.describeChangeSet cfn
      (h ++ [CreateChangeSet params; WaitFor (changeSetCreateComplete ref)])
      ref = Resolved status ->
    DescribeChangeSetOutput.Status status = Some (js "FAILED") ->
    (noDelete = false ->
     CloudFormation.deleteChangeSet cfn
       (h ++ [CreateChangeSet params; WaitFor (changeSetCreateComplete ref);
              DescribeChangeSet ref])
       ref = Resolved tt) ->
    (noEmpty = true /\ KnownReason reason ->
     fst run = Resolved (Stack.StackId stack))
    /\ (noEmpty = false \/ ~ KnownReason reason ->
        fst run =
        Rejected
          (Error (js "Failed to create Change Set: " ++ template reason))).
Proof.
  intros rt cfn stack params noEmpty noExecute noDelete h cset e status
    ref reason run Hc Hw Hd Hs Hdel.
  assert (E : fst run = verdict stack noEmpty reason).
  { subst run.
    rewrite (@updateStack_wait_failed rt cfn stack params noEmpty
               noExecute noDelete h cset e Hc Hw).
    rewrite cleanupChangeSet_run. cbv zeta. fold ref. rewrite Hd.
    rewrite (proj2 (isFailed_spec _) Hs). fold reason.
    destruct noDelete; [reflexivity|].
    rewrite <- app_assoc. cbn [app]. rewrite (Hdel eq_refl). reflexivity. }
  rewrite E. unfold verdict. split.
  - intros [-> K]. apply isKnownError_spec in K. rewrite K. reflexivity.
  - intros [->|K]; [reflexivity|].
    destruct (isKnownError reason) eqn:K'.
    + apply isKnownError_spec in K'. tauto.
    + rewrite andb_false_r. reflexivity.
Qed.

Lemma updateStack_failed_change_set_witness :
  let reason := js "No updates are to be performed" in
  let cfn := empty_change_set_provider (Some reason) (Resolved tt) in
  let params := changeSetInput sample_params in
  KnownReason (Some reason)
  /\ fst (updateStack plain_runtime cfn sample_stack params
            true false false []) =
     Resolved (Some (js "arn:stack/MockStack/1")).
Proof.
  cbv zeta.
  assert (K : KnownReason (Some (js "No updates are to be performed"))).
  { exists (js "No updates are to be performed"), [], [].
    split; [reflexivity | left; reflexivity]. }
  split; [exact K|].
  refine (proj1
            (@updateStack_failed_change_set plain_runtime
               (empty_change_set_provider
                  (Some (js "No updates are to be performed")) (Resolved tt))
               sample_stack (changeSetInput sample_params)
               true false false [] _ _ _
               eq_refl eq_refl eq_refl eq_refl (fun _ => eq_refl))
            (conj eq_refl K)).
Defined.

(** C8. If the wait for the creation of the change set fails and the status
    fetched afterwards is anything but ['FAILED'], [updateStack] returns
    [undefined]: it does not delete the change set, raises no error, and
    does not return the identifier of the stack. *)
Theorem updateStack_unfinished_change_set :
  forall (rt : Runtime.t) (cfn : CloudFormation.t) (stack : Stack.t)
         (params : CreateChangeSetInput.t)
         (noEmpty noExecute noDelete : bool) (h : Log)
         (cset : CreateChangeSetOutput.t) (e : Exn)
         (status : DescribeChangeSetOutput.t),
    let ref := ref_of params in
    let run := updateStack rt cfn stack params noEmpty noExecute noDelete h in
    CloudFormation.createChangeSet cfn h params = Resolved cset ->
    CloudFormation.waitFor cfn (h ++ [CreateChangeSet params])
      (changeSetCreateComplete ref) = Rejected e ->
    CloudFormation.describeChangeSet cfn
      (h ++ [CreateChangeSet params; WaitFor (changeSetCreateComplete ref)])
      ref = Resolved status ->
    DescribeChangeSetOutput.Status status <> Some (js "FAILED") ->
    fst run = Resolved None
    /\ (forall id, fst run <> Resolved (Some id))
    /\ exists issued,
         snd run = h ++ issued
         /\ issued =
            [CreateChangeSet params; WaitFor (changeSetCreateComplete ref);
             DescribeChangeSet ref]
         /\ existsb isDeleteChangeSet issued = false.
Proof.
  intros rt cfn stack params noEmpty noExecute noDelete h cset e status
    ref run Hc Hw Hd Hs.
  assert (E : run =
              (Resolved None,
               h ++ [CreateChangeSet params;
                     WaitFor (changeSetCreateComplete ref);
                     DescribeChangeSet ref])).
  { subst run.
    rewrite (@updateStack_wait_failed rt cfn stack params noEmpty
               noExecute noDelete h cset e Hc Hw).
    rewrite cleanupChangeSet_run. cbv zeta. fold ref. rewrite Hd.
    destruct (isFailed (DescribeChangeSetOutput.Status status)) eqn:F.
    - apply isFailed_spec in F. contradiction.
    - rewrite <- app_assoc. reflexivity. }
  rewrite E. cbn [fst snd]. split; [reflexivity|].
  split; [intros id; discriminate|].
  eexists; split; [reflexivity|]. split; reflexivity.
Qed.

Lemma updateStack_unfinished_change_set_witness :
  let params := changeSetInput sample_params in
  Some (js "CREATE_IN_PROGRESS") <> Some (js "FAILED")
  /\ fst (updateStack plain_runtime pending_change_set_provider sample_stack
            params true false false []) = Resolved None.
Proof.
  cbv zeta.
  assert (N : Some (js "CREATE_IN_PROGRESS") <> Some (js "FAILED"))
    by discriminate.
  split; [exact N|].
  exact (proj1
           (@updateStack_unfinished_change_set plain_runtime
              pending_change_set_provider sample_stack
              (changeSetInput sample_params) true false false [] _ _ _
              eq_refl eq_refl eq_refl N)).
Defined.

(** C5. For every deployment against an existing stack, the change set is
    submitted to the provider under the name of the stack followed by
    ["-CS"], and every request of the run that names a change set names
    that one: the name depends on the stack name alone. *)
Theorem deployStack_change_set_name :
  forall (rt : Runtime.t) (cfn : CloudFormation.t)
         (params : CreateStackInput.t) (noEmpty noExecute noDelete : bool)
         (h : Log) (stack : Stack.t),
    let name := CreateStackInput.StackName params in
    fst (getStack cfn name h) = Resolved (Some stack) ->
    exists submitted rest,
      snd (deployStack rt cfn params noEmpty noExecute noDelete h) =
      h ++ DescribeStacks name :: CreateChangeSet submitted :: rest
      /\ CreateChangeSetInput.ChangeSetName submitted = name ++ js "-CS"
      /\ CreateChangeSetInput.StackName submitted = name
      /\ Forall
           (fun r => forall n, changeSetName r = Some n -> n = name ++ js "-CS")
           rest.
Proof.
  intros rt cfn params noEmpty noExecute noDelete h stack name H.
  rewrite deployStack_run. cbv zeta. fold name. rewrite H.
  destruct (updateStack_requests rt cfn stack (changeSetInput params)
              noEmpty noExecute noDelete (h ++ [DescribeStacks name]))
    as [rest [E Hrest]].
  exists (changeSetInput params), rest.
  rewrite E, <- app_assoc. split; [reflexivity|].
  split; [reflexivity|]. split; [reflexivity | exact Hrest].
Qed.

Lemma deployStack_change_set_name_witness :
  fst (getStack updating_provider (js "MockStack") []) =
    Resolved (Some sample_stack)
  /\ exists submitted rest,
       snd (deployStack plain_runtime updating_provider sample_params
              false false false []) =
       [] ++ DescribeStacks (js "MockStack")
          :: CreateChangeSet submitted :: rest
       /\ CreateChangeSetInput.ChangeSetName submitted = js "MockStack-CS".
Proof.
  split; [reflexivity|].
  destruct (@deployStack_change_set_name plain_runtime updating_provider
              sample_params false false false [] sample_stack eq_refl)
    as [submitted [rest [E [N _]]]].
  exists submitted, rest. split; [exact E | exact N].
Defined.

(* ================================================================= *)
(** ** The pieces of a parameter-override string *)

Lemma key_value_second_equals (piece k v rest : jsstring) :
  trim piece = k ++ equals :: v ++ equals :: rest ->
  ~ In equals k -> ~ In equals v ->
  key_value piece = (k, Some v).
Proof.
  intros E Hk Hv. unfold key_value. rewrite E.
  rewrite split_at_first by assumption.
  rewrite split_at_first by assumption. reflexivity.
Qed.

Lemma key_value_one_equals (piece k v : jsstring) :
  trim piece = k ++ equals :: v ->
  ~ In equals k -> ~ In equals v ->
  key_value piece = (k, Some v).
Proof.
  intros E Hk Hv. unfold key_value. rewrite E.
  rewrite split_at_first by assumption.
  rewrite split_without by assumption. reflexivity.
Qed.

Lemma pairs_join (l : list jsstring) :
  l <> [] -> Forall (fun p => ~ In comma p) l ->
  pairs (join [comma] l) = List.map key_value l.
Proof.
  intros Hl H. unfold pairs. destruct l as [|p ps]; [congruence|].
  rewrite split_join by assumption. reflexivity.
Qed.

(** The result is a function of the [(key, value)] pairs of the pieces. *)
Lemma parseParameters_pairs (s s' : jsstring) :
  pairs s = pairs s' -> parseParameters s = parseParameters s'.
Proof.
  intros E. rewrite !parseParameters_stored, !parameters_of_pairs, E.
  reflexivity.
Qed.

Lemma values_of_app (k : jsstring)
    (ps qs : list (jsstring * option jsstring)) :
  values_of k (ps ++ qs) = values_of k ps ++ values_of k qs.
Proof. unfold values_of. rewrite filter_app, map_app. reflexivity. Qed.

Lemma values_of_other_keys (k : jsstring) (l : list jsstring) :
  Forall (fun p => fst (key_value p) <> k) l ->
  values_of k (List.map key_value l) = [].
Proof.
  unfold values_of. induction 1 as [|p l Hp Hl IH]; [reflexivity|].
  simpl. apply str_eqb_neq in Hp. rewrite Hp. exact IH.
Qed.

(** The values of key [k] in a string with the piece [k=v=...] in it. *)
Lemma values_of_piece (before after : list jsstring)
    (piece k : jsstring) (v : option jsstring) :
  Forall (fun p => ~ In comma p) (before ++ piece :: after) ->
  key_value piece = (k, v) ->
  values_of k (pairs (join [comma] (before ++ piece :: after))) =
  values_of k (List.map key_value before)
  ++ v :: values_of k (List.map key_value after).
Proof.
  intros Hall K. rewrite pairs_join;
    [|destruct before; discriminate | exact Hall].
  rewrite map_app, values_of_app. cbn [List.map]. rewrite K.
  unfold values_of at 2. cbn [filter fst]. rewrite str_eqb_refl.
  reflexivity.
Qed.

Lemma piece_key_In (before after : list jsstring)
    (piece k : jsstring) (v : option jsstring) :
  Forall (fun p => ~ In comma p) (before ++ piece :: after) ->
  key_value piece = (k, v) ->
  In k (List.map fst (pairs (join [comma] (before ++ piece :: after)))).
Proof.
  intros Hall K. rewrite pairs_join;
    [|destruct before; discriminate | exact Hall].
  rewrite !map_app. apply in_or_app. right. simpl. rewrite K. left.
  reflexivity.
Qed.

(** C9. For every comma-separated piece of the parameter-override string
    that has more than one ['='], [parseParameters] keeps the text between
    the first and the second ['='] as the value and discards everything
    from the second ['='] on. With [k] the text before the first ['='] of
    the trimmed piece and [v] the text between the first two: the result
    has exactly one entry for [k], whose value is accumulated from the
    values of [k] in the pieces before, then [v], then the values of [k] in
    the pieces after; so when no other piece has the key [k] the value is
    [v], a string made of the piece alone yields that entry and nothing
    else, and when the piece is the first with key [k] and [v] is not empty
    the value is [v] followed by the later values of [k], joined with
    commas. In every case the result is the same as for a piece that stops
    before the second ['=']. For example ["A=b=c"] yields the key [A] with
    the value ["b"]. *)
Theorem parseParameters_discards_after_second_equals :
  forall (before after : list jsstring) (piece k v rest : jsstring),
    Forall (fun p => ~ In comma p) (before ++ piece :: after) ->
    trim piece = k ++ equals :: v ++ equals :: rest ->
    ~ In equals k -> ~ In equals v ->
    let result := parseParameters (join [comma] (before ++ piece :: after)) in
    entries_for k result
    = [ {| ParameterKey := k;
           ParameterValue :=
             fold_left accumulate
               (values_of k (List.map key_value before)
                ++ Some v :: values_of k (List.map key_value after))
               None |} ]
    /\ (Forall (fun p => fst (key_value p) <> k) (before ++ after) ->
        entries_for k result
        = [ {| ParameterKey := k; ParameterValue := Some v |} ])
    /\ (before = [] -> after = [] ->
        parseParameters piece
        = [ {| ParameterKey := k; ParameterValue := Some v |} ])
    /\ (Forall (fun p => fst (key_value p) <> k) before -> v <> [] ->
        entries_for k result
        = [ {| ParameterKey := k;
               ParameterValue :=
                 Some (join [comma]
                         (v :: List.map value_text
                                 (values_of k (List.map key_value after))))
            |} ])
    /\ (forall other,
          ~ In comma other ->
          (trim other = k ++ equals :: v
           \/ exists rest', trim other = k ++ equals :: v ++ equals :: rest')
          ->
          result = parseParameters (join [comma] (before ++ other :: after)))
    /\ parseParameters (js "A=b=c") =
       [ {| ParameterKey := js "A"; ParameterValue := Some (js "b") |} ].
Proof.
  intros before after piece k v rest Hall E Hk Hv result.
  assert (K : key_value piece = (k, Some v))
    by (eapply key_value_second_equals; eassumption).
  pose proof (values_of_piece before after piece _ _ Hall K) as V.
  pose proof (piece_key_In before after piece _ _ Hall K) as I.
  split; [|split; [|split; [|split; [|split; [|reflexivity]]]]].
  - subst result. rewrite entries_for_key by exact I. rewrite V.
    reflexivity.
  - intros Hother. apply Forall_app in Hother. destruct Hother as [Hb Ha].
    subst result. rewrite entries_for_key by exact I.
    rewrite V, !values_of_other_keys by assumption. reflexivity.
  - intros -> ->. cbn [app join] in *.
    rewrite parseParameters_stored, keys_parameters_of, parameters_of_pairs.
    unfold pairs in *. rewrite split_without
      by (inversion Hall; assumption).
    cbn [pieces fst snd List.map first_seen filter fold_left].
    rewrite K. unfold add_pair, stored. cbn [fst snd JsMap.get JsMap.set
      JsMap.empty accumulate]. rewrite str_eqb_refl. reflexivity.
  - intros Hb Hne. subst result. rewrite entries_for_key by exact I.
    rewrite V, values_of_other_keys by assumption.
    destruct v as [|c p]; [congruence|].
    cbn [app fold_left accumulate]. rewrite accumulate_nonempty. reflexivity.
  - intros other Hother Eo.
    assert (K' : key_value other = (k, Some v)).
    { destruct Eo as [Eo|[rest' Eo]].
      - eapply key_value_one_equals; eassumption.
      - eapply key_value_second_equals; eassumption. }
    subst result. apply parseParameters_pairs.
    rewrite !pairs_join.
    + rewrite !map_app. cbn [List.map]. rewrite K, K'. reflexivity.
    + destruct before; discriminate.
    + apply Forall_app in Hall. destruct Hall as [Hb Ha].
      inversion Ha; subst. apply Forall_app; split; [assumption|].
      constructor; assumption.
    + destruct before; discriminate.
    + exact Hall.
Qed.

Lemma parseParameters_discards_after_second_equals_witness :
  trim (js " A=b=c=d ") = js "A" ++ equals :: js "b" ++ equals :: js "c=d"
  /\ entries_for (js "A")
       (parseParameters (js "X=1, A=b=c=d ,A=2"))
     = [ {| ParameterKey := js "A"; ParameterValue := Some (js "b,2") |} ]
  /\ parseParameters (js "X=1, A=b=c=d ,A=2")
     = parseParameters (js "X=1,A=b,A=2").
Proof.
  split; [reflexivity|].
  assert (F : Forall (fun p => ~ In comma p)
                ([js "X=1"] ++ js " A=b=c=d " :: [js "A=2"]))
    by (repeat constructor; vm_compute; intuition discriminate).
  assert (Nk : ~ In equals (js "A")) by (vm_compute; intuition discriminate).
  assert (Nv : ~ In equals (js "b")) by (vm_compute; intuition discriminate).
  pose proof (@parseParameters_discards_after_second_equals
                [js "X=1"] [js "A=2"] (js " A=b=c=d ")
                (js "A") (js "b") (js "c=d") F eq_refl Nk Nv)
    as (_ & _ & _ & H3 & H4 & _).
  split.
  - apply H3.
    + repeat constructor. vm_compute. discriminate.
    + discriminate.
  - apply (H4 (js "A=b")).
    + vm_compute; intuition discriminate.
    + left. reflexivity.
Defined.

(* ================================================================= *)
(** ** Numbers *)

Section NumberFacts.
Local Open Scope Z_scope.

Lemma digits2_pos_size p : digits2_pos p = Pos.size p.
Proof. induction p; simpl; congruence. Qed.

Lemma digits2_pos_bounds p :
  2 ^ (Zpos (digits2_pos p) - 1) <= Zpos p < 2 ^ Zpos (digits2_pos p).
Proof.
  rewrite digits2_pos_size. split.
  - pose proof (Pos.size_le p) as H.
    assert (H' : 2 ^ Zpos (Pos.size p) <= 2 * Zpos p).
    { change (2 * Zpos p) with (Zpos p~0). rewrite <- Pos2Z.inj_pow. exact H. }
    replace (Zpos (Pos.size p)) with (Zpos (Pos.size p) - 1 + 1) in H' by lia.
    rewrite Z.pow_add_r in H' by lia. lia.
  - pose proof (Pos.size_gt p) as H. rewrite <- Pos2Z.inj_pow. exact H.
Qed.

Lemma shr_1_m mrs : 0 <= shr_m mrs -> shr_m (shr_1 mrs) = shr_m mrs / 2.
Proof.
  destruct mrs as [m r s]; cbn [shr_m shr_1]. intros H.
  destruct m as [|[p|p|]|p]; cbn [shr_m]; try lia.
  - reflexivity.
  - apply Z.div_unique with 1; lia.
  - apply Z.div_unique with 0; lia.
  - reflexivity.
Qed.

Lemma iter_pos_shr_m p : forall mrs,
  0 <= shr_m mrs ->
  shr_m (iter_pos shr_1 p mrs) = shr_m mrs / 2 ^ Zpos p.
Proof.
  assert (P : forall q, 0 < 2 ^ Zpos q)
    by (intros; apply Z.pow_pos_nonneg; lia).
  induction p as [p IH|p IH|]; intros mrs H; simpl iter_pos.
  - assert (H1 : 0 <= shr_m (shr_1 mrs)).
    { rewrite shr_1_m by assumption. apply Z.div_pos; lia. }
    assert (H2 : 0 <= shr_m (iter_pos shr_1 p (shr_1 mrs))).
    { rewrite IH by assumption. apply Z.div_pos; [lia | apply P]. }
    rewrite IH, IH, shr_1_m by assumption.
    pose proof (P p).
    rewrite !Z.div_div by lia. f_equal.
    assert (E : 2 ^ Zpos p~1 = 2 * 2 ^ Zpos p * 2 ^ Zpos p).
    { rewrite <- Z.mul_assoc, <- Z.pow_add_r, <- Z.pow_succ_r by lia.
      f_equal; lia. }
    rewrite E. ring.
  - assert (H2 : 0 <= shr_m (iter_pos shr_1 p mrs)).
    { rewrite IH by assumption. apply Z.div_pos; [lia | apply P]. }
    rewrite IH, IH by assumption.
    pose proof (P p).
    rewrite !Z.div_div by lia. f_equal.
    rewrite <- Z.pow_add_r by lia. f_equal; lia.
  - rewrite shr_1_m by assumption. reflexivity.
Qed.

(** Shifting a positive mantissa to its format exponent leaves it positive. *)
Lemma shr_fexp_positive (m : positive) (e : Z) (l : location) :
  -1000 <= e ->
  0 < shr_m (fst (shr_fexp 53 1024 (Zpos m) e l))
  /\ e <= snd (shr_fexp 53 1024 (Zpos m) e l).
Proof.
  intros He. unfold shr_fexp, shr, fexp, emin. cbn [Zdigits2].
  pose proof (digits2_pos_bounds m) as [Hlo Hhi].
  set (d := Zpos (digits2_pos m)) in *.
  assert (Hd : 1 <= d) by (subst d; lia).
  destruct (Z.max (d + e - 53) (3 - 1024 - 53) - e) as [|p|p] eqn:E;
    cbn [fst snd].
  - split; [destruct l as [|[]]; simpl; lia | lia].
  - split; [|lia].
    rewrite iter_pos_shr_m by (destruct l as [|[]]; simpl; lia).
    assert (Hm : shr_m (shr_record_of_loc (Zpos m) l) = Zpos m)
      by (destruct l as [|[]]; reflexivity).
    rewrite Hm.
    assert (Hp : Zpos p <= d - 1) by lia.
    assert (2 ^ Zpos p <= 2 ^ (d - 1)) by (apply Z.pow_le_mono_r; lia).
    apply Z.div_str_pos. split; [apply Z.pow_pos_nonneg; lia | lia].
  - split; [destruct l as [|[]]; simpl; lia | lia].
Qed.

Lemma round_nearest_even_ge (m : Z) (l : location) :
  m <= round_nearest_even m l.
Proof.
  destruct l as [|[]]; simpl; try lia. destruct (Z.even m); lia.
Qed.

Lemma binary_round_aux_truthy (sx : bool) (m : positive) (e : Z)
    (l : location) :
  -1000 <= e ->
  truthyNumber (binary_round_aux 53 1024 sx (Zpos m) e l) = true.
Proof.
  intros He. unfold binary_round_aux.
  pose proof (shr_fexp_positive m e l He) as [H1 H2].
  destruct (shr_fexp 53 1024 (Zpos m) e l) as [mrs' e']. cbn [fst snd] in *.
  pose proof (round_nearest_even_ge (shr_m mrs') (loc_of_shr_record mrs')).
  destruct (round_nearest_even (shr_m mrs') (loc_of_shr_record mrs'))
    as [|m2|m2] eqn:R; try lia.
  pose proof (shr_fexp_positive m2 e' loc_Exact ltac:(lia)) as [H3 H4].
  destruct (shr_fexp 53 1024 (Zpos m2) e' loc_Exact) as [mrs'' e''].
  cbn [fst snd] in *.
  destruct (shr_m mrs'') as [|m3|m3]; try lia.
  destruct (e'' <=? 1024 - 53); reflexivity.
Qed.

Lemma shl_align_exponent (m : positive) (e' : Z) :
  -1000 <= e' ->
  -1000 <= snd (shl_align m 0 e').
Proof.
  intros H. unfold shl_align. destruct (e' - 0) eqn:E; cbn [snd]; lia.
Qed.

(** The Number of a non-zero integer is neither zero nor NaN. *)
Lemma toNumber_truthy (z : Z) : z <> 0 -> truthyNumber (toNumber z) = true.
Proof.
  intros Hz. unfold toNumber, binary_normalize, binary_round.
  destruct z as [|m|m]; [congruence| |];
    (pose proof (shl_align_exponent m
                   (fexp 53 1024 (Zpos (digits2_pos m) + 0))) as H;
     destruct (shl_align m 0 (fexp 53 1024 (Zpos (digits2_pos m) + 0)))
       as [mz ez]; cbn [snd] in H;
     apply binary_round_aux_truthy; apply H;
     unfold fexp, emin; lia).
Qed.

Lemma binary_round_aux_opp (m : Z) (e : Z) (l : location) :
  binary_round_aux 53 1024 true m e l
  = SFopp (binary_round_aux 53 1024 false m e l).
Proof.
  unfold binary_round_aux.
  destruct (shr_fexp 53 1024 m e l) as [mrs' e'].
  destruct (shr_fexp 53 1024 _ e' loc_Exact) as [mrs'' e''].
  destruct (shr_m mrs''); try reflexivity.
  destruct (e'' <=? 1024 - 53); reflexivity.
Qed.

(** Negating the integer negates the Number. *)
Lemma toNumber_opp (z : Z) : z <> 0 -> toNumber (- z) = SFopp (toNumber z).
Proof.
  intros Hz. unfold toNumber, binary_normalize, binary_round.
  destruct z as [|m|m]; [congruence| |]; cbn [Z.opp];
    destruct (shl_align m 0 _) as [mz ez]; rewrite binary_round_aux_opp;
    [reflexivity|].
  destruct (binary_round_aux 53 1024 false (Zpos mz) ez loc_Exact)
    as [[]|[]| |[] ? ?];
    reflexivity.
Qed.

Lemma iter_xO_value (m k : positive) :
  Zpos (Pos.iter xO m k) = Zpos m * 2 ^ Zpos k.
Proof.
  induction k as [|k IH] using Pos.peano_ind.
  - simpl. lia.
  - rewrite Pos.iter_succ, Pos2Z.inj_xO, IH, Pos2Z.inj_succ, Z.pow_succ_r
      by lia.
    ring.
Qed.

Lemma iter_xO_digits (m k : positive) :
  Zpos (digits2_pos (Pos.iter xO m k)) = Zpos (digits2_pos m) + Zpos k.
Proof.
  induction k as [|k IH] using Pos.peano_ind.
  - simpl. lia.
  - rewrite Pos.iter_succ. cbn [digits2_pos]. lia.
Qed.

(** A mantissa of 53 bits at an exponent in range is kept as it is. *)
Lemma binary_round_aux_canonical (sx : bool) (m : positive) (e : Z) :
  Zpos (digits2_pos m) = 53 -> -1074 <= e <= 971 ->
  binary_round_aux 53 1024 sx (Zpos m) e loc_Exact = S754_finite sx m e.
Proof.
  intros Hd He. unfold binary_round_aux, shr_fexp, fexp, emin.
  cbn [Zdigits2]. rewrite Hd.
  replace (Z.max (53 + e - 53) (3 - 1024 - 53) - e) with 0 by lia.
  cbn [shr shr_record_of_loc shr_m loc_of_shr_record round_nearest_even
       Zdigits2].
  rewrite Hd.
  replace (Z.max (53 + e - 53) (3 - 1024 - 53) - e) with 0 by lia.
  cbn [shr shr_record_of_loc shr_m].
  destruct (Z.leb_spec e (1024 - 53)); [reflexivity | lia].
Qed.

Lemma toNumber_small (sx : bool) (m : positive) :
  Zpos m < 2 ^ 53 ->
  exists mz ez,
    binary_round 53 1024 sx m 0 = S754_finite sx mz ez
    /\ -52 <= ez <= 0 /\ Zpos mz = Zpos m * 2 ^ (- ez).
Proof.
  intros Hm. unfold binary_round, shl_align, fexp, emin.
  pose proof (digits2_pos_bounds m) as [Hlo Hhi].
  set (d := Zpos (digits2_pos m)) in *.
  assert (Hd : 1 <= d <= 53).
  { split; [subst d; lia|].
    destruct (Z.le_gt_cases d 53) as [|G]; [assumption|].
    assert (2 ^ 53 <= 2 ^ (d - 1)) by (apply Z.pow_le_mono_r; lia). lia. }
  replace (Z.max (d + 0 - 53) (3 - 1024 - 53)) with (d - 53) by lia.
  destruct (d - 53 - 0) as [|k|k] eqn:E; try lia.
  - exists m, 0. rewrite binary_round_aux_canonical by (fold d; lia).
    split; [reflexivity|]. split; [lia|]. simpl. lia.
  - exists (Pos.iter xO m k), (d - 53).
    rewrite binary_round_aux_canonical
      by (rewrite ?iter_xO_digits; fold d; lia).
    split; [reflexivity|]. split; [lia|].
    rewrite iter_xO_value. f_equal. f_equal. lia.
Qed.

(** Integers of magnitude at most 2^53 are Numbers: nothing is rounded. *)
Lemma toNumber_exact (z : Z) :
  Z.abs z <= 2 ^ 53 -> integerOf (toNumber z) = Some z.
Proof.
  intros Hz.
  destruct (Z.eq_dec (Z.abs z) (2 ^ 53)) as [E|N].
  { assert (z = 2 ^ 53 \/ z = - 2 ^ 53) as [-> | ->] by lia;
      vm_compute; reflexivity. }
  unfold toNumber, binary_normalize.
  destruct z as [|m|m]; [reflexivity| |].
  - destruct (toNumber_small false m) as (mz & ez & -> & He & Hv); [lia|].
    unfold integerOf.
    assert (P : 0 < 2 ^ (- ez)) by (apply Z.pow_pos_nonneg; lia).
    destruct (Z.leb_spec 0 ez).
    + replace ez with 0 in * by lia. f_equal. simpl in Hv. lia.
    + rewrite Hv, Z.mod_mul by lia. cbn [Z.eqb].
      rewrite Z.div_mul by lia. reflexivity.
  - destruct (toNumber_small true m) as (mz & ez & -> & He & Hv); [lia|].
    unfold integerOf.
    assert (P : 0 < 2 ^ (- ez)) by (apply Z.pow_pos_nonneg; lia).
    destruct (Z.leb_spec 0 ez).
    + replace ez with 0 in * by lia. f_equal. simpl in Hv. lia.
    + rewrite Hv, Z.mod_mul by lia. cbn [Z.eqb].
      replace (Zneg mz) with (Zneg m * 2 ^ (- ez)) by lia.
      rewrite Z.div_mul by lia. reflexivity.
Qed.

End NumberFacts.

(* ================================================================= *)
(** ** parseNumber *)

Lemma trimStart_whitespace (ws s : jsstring) :
  forallb isWhiteSpace ws = true -> trimStart (ws ++ s) = trimStart s.
Proof.
  induction ws as [|c ws IH]; simpl; [reflexivity|].
  rewrite andb_true_iff. intros [-> H]. apply IH, H.
Qed.

Lemma decimal_digit_cases (c : N) :
  isDecimalDigit c = true ->
  (c = 48 \/ c = 49 \/ c = 50 \/ c = 51 \/ c = 52
   \/ c = 53 \/ c = 54 \/ c = 55 \/ c = 56 \/ c = 57)%N.
Proof.
  unfold isDecimalDigit. rewrite andb_true_iff, !N.leb_le. lia.
Qed.

Lemma decimal_digit_facts (c : N) :
  isDecimalDigit c = true ->
  isWhiteSpace c = false /\ N.eqb c 45 = false /\ N.eqb c 43 = false
  /\ N.eqb c 120 = false /\ N.eqb c 88 = false
  /\ radixDigit 10 c = Some (Z.of_N c - 48)%Z.
Proof.
  intros H. apply decimal_digit_cases in H.
  repeat (destruct H as [->|H]); try subst c; repeat split; reflexivity.
Qed.

Lemma radixDigit_not_decimal (c : N) :
  isDecimalDigit c = false -> radixDigit 10 c = None.
Proof.
  unfold isDecimalDigit, radixDigit, digitValue. intros ->.
  destruct ((97 <=? c)%N && (c <=? 122)%N) eqn:L.
  - apply andb_true_iff in L. rewrite !N.leb_le in L.
    destruct (Z.ltb_spec (Z.of_N c - 87) 10); [lia | reflexivity].
  - destruct ((65 <=? c)%N && (c <=? 90)%N) eqn:U; [|reflexivity].
    apply andb_true_iff in U. rewrite !N.leb_le in U.
    destruct (Z.ltb_spec (Z.of_N c - 55) 10); [lia | reflexivity].
Qed.

Lemma leadingDigits_decimal (ds rest : jsstring) :
  forallb isDecimalDigit ds = true ->
  match rest with c :: _ => isDecimalDigit c = false | [] => True end ->
  leadingDigits 10 (ds ++ rest) = List.map (fun c => Z.of_N c - 48)%Z ds.
Proof.
  intros Hds Hrest. induction ds as [|c ds IH]; simpl.
  - destruct rest as [|c rest]; [reflexivity|].
    simpl. rewrite radixDigit_not_decimal by assumption. reflexivity.
  - simpl in Hds. apply andb_true_iff in Hds. destruct Hds as [Hc Hds].
    destruct (decimal_digit_facts c Hc) as (_ & _ & _ & _ & _ & ->).
    rewrite IH by assumption. reflexivity.
Qed.

Lemma digitsValue_decimal (ds : jsstring) :
  digitsValue 10 (List.map (fun c => Z.of_N c - 48)%Z ds) = decimalValue ds.
Proof.
  unfold digitsValue, decimalValue. generalize 0%Z.
  induction ds as [|c ds IH]; intros acc; simpl; [reflexivity | apply IH].
Qed.

Lemma hex_digit_cases (c : N) :
  isHexDigit c = true ->
  (c = 48 \/ c = 49 \/ c = 50 \/ c = 51 \/ c = 52 \/ c = 53 \/ c = 54
   \/ c = 55 \/ c = 56 \/ c = 57 \/ c = 97 \/ c = 98 \/ c = 99 \/ c = 100
   \/ c = 101 \/ c = 102 \/ c = 65 \/ c = 66 \/ c = 67 \/ c = 68
   \/ c = 69 \/ c = 70)%N.
Proof.
  unfold isHexDigit, isDecimalDigit.
  rewrite !orb_true_iff, !andb_true_iff, !N.leb_le. lia.
Qed.

Lemma radixDigit_hex (c : N) :
  isHexDigit c = true -> radixDigit 16 c = Some (hexDigitValue c).
Proof.
  intros H. apply hex_digit_cases in H.
  repeat (destruct H as [->|H]); try subst c; reflexivity.
Qed.

Lemma radixDigit_not_hex (c : N) :
  isHexDigit c = false -> radixDigit 16 c = None.
Proof.
  unfold isHexDigit, isDecimalDigit, radixDigit, digitValue.
  rewrite !orb_false_iff, !andb_false_iff, !N.leb_gt.
  intros [[D L] U].
  destruct ((48 <=? c)%N && (c <=? 57)%N) eqn:E1.
  { apply andb_true_iff in E1. rewrite !N.leb_le in E1. lia. }
  destruct ((97 <=? c)%N && (c <=? 122)%N) eqn:E2.
  { apply andb_true_iff in E2. rewrite !N.leb_le in E2.
    destruct (Z.ltb_spec (Z.of_N c - 87) 16); [lia | reflexivity]. }
  destruct ((65 <=? c)%N && (c <=? 90)%N) eqn:E3; [|reflexivity].
  apply andb_true_iff in E3. rewrite !N.leb_le in E3.
  destruct (Z.ltb_spec (Z.of_N c - 55) 16); [lia | reflexivity].
Qed.

Lemma leadingDigits_hex (hs rest : jsstring) :
  forallb isHexDigit hs = true ->
  match rest with c :: _ => isHexDigit c = false | [] => True end ->
  leadingDigits 16 (hs ++ rest) = List.map hexDigitValue hs.
Proof.
  intros Hhs Hrest. induction hs as [|c hs IH]; simpl.
  - destruct rest as [|c rest]; [reflexivity|].
    simpl. rewrite radixDigit_not_hex by assumption. reflexivity.
  - simpl in Hhs. apply andb_true_iff in Hhs. destruct Hhs as [Hc Hhs].
    rewrite radixDigit_hex by assumption.
    rewrite IH by assumption. reflexivity.
Qed.

Lemma digitsValue_hex (hs : jsstring) :
  digitsValue 16 (List.map hexDigitValue hs) = hexValue hs.
Proof.
  unfold digitsValue, hexValue. generalize 0%Z.
  induction hs as [|c hs IH]; intros acc; simpl; [reflexivity | apply IH].
Qed.


Lemma parseInt_steps (s : jsstring) : parseInt s = numberOf (readInteger s).
Proof.
  unfold parseInt, readInteger, signed, numeralOf, numberOf.
  destruct (trimStart s) as [|c r].
  - cbn [hexPrefixed leadingDigits]. reflexivity.
  - destruct (N.eqb c 45); [|destruct (N.eqb c 43)];
      match goal with
      | |- context [hexPrefixed ?x] => destruct (hexPrefixed x)
      end;
      match goal with
      | |- context [leadingDigits ?R ?x] => destruct (leadingDigits R x)
      end; reflexivity.
Qed.

Lemma trimStart_split (s : jsstring) :
  exists ws, forallb isWhiteSpace ws = true /\ s = ws ++ trimStart s.
Proof.
  induction s as [|c s [ws [Hws E]]]; [exists []; split; reflexivity|].
  simpl. destruct (isWhiteSpace c) eqn:W.
  - exists (c :: ws). simpl. rewrite W, Hws. split; [reflexivity|].
    f_equal. exact E.
  - exists []. split; reflexivity.
Qed.

(** A string splits into its longest run of decimal digits and the rest. *)
Lemma leadingDigits_split_decimal (S : jsstring) :
  exists ds rest,
    S = ds ++ rest
    /\ forallb isDecimalDigit ds = true
    /\ stops isDecimalDigit rest
    /\ leadingDigits 10 S = List.map (fun c => Z.of_N c - 48)%Z ds.
Proof.
  induction S as [|c S (ds & rest & E & Hds & Hrest & L)].
  - exists [], []. repeat split.
  - destruct (isDecimalDigit c) eqn:D.
    + exists (c :: ds), rest. simpl. rewrite D, Hds, L, E.
      destruct (decimal_digit_facts c D) as (_ & _ & _ & _ & _ & ->).
      rewrite <- E. repeat split. exact Hrest.
    + exists [], (c :: S). simpl.
      rewrite radixDigit_not_decimal by assumption. repeat split. exact D.
Qed.

Lemma leadingDigits_split_hex (S : jsstring) :
  exists hs rest,
    S = hs ++ rest
    /\ forallb isHexDigit hs = true
    /\ stops isHexDigit rest
    /\ leadingDigits 16 S = List.map hexDigitValue hs.
Proof.
  induction S as [|c S (hs & rest & E & Hhs & Hrest & L)].
  - exists [], []. repeat split.
  - destruct (isHexDigit c) eqn:D.
    + exists (c :: hs), rest. simpl. rewrite D, Hhs, L, E.
      rewrite radixDigit_hex by assumption.
      rewrite <- E. repeat split. exact Hrest.
    + exists [], (c :: S). simpl.
      rewrite radixDigit_not_hex by assumption. repeat split. exact D.
Qed.

(** The numeral step of [parseInt] reads exactly the numerals. *)
Lemma numeralOf_Numeral (body : jsstring) (v : Z) :
  numeralOf body = Some v <-> Numeral body v.
Proof.
  unfold numeralOf, Numeral. split.
  - destruct (hexPrefixed body) eqn:P.
    + destruct body as [|c0 [|c1 r]]; try discriminate.
      simpl in P. apply andb_true_iff in P. destruct P as [P0 P1].
      apply N.eqb_eq in P0. subst c0.
      cbn [skipn].
      destruct (leadingDigits_split_hex r) as (hs & rest & E & Hhs & Hr & L).
      rewrite L. intros H. left. exists c1, hs, rest.
      split; [rewrite E; reflexivity|].
      split; [apply orb_true_iff in P1;
              destruct P1 as [P1|P1]; apply N.eqb_eq in P1; auto|].
      destruct hs as [|h hs]; [discriminate|].
      split; [discriminate|]. split; [exact Hhs|]. split; [exact Hr|].
      cbn [List.map] in H.
      change (hexDigitValue h :: List.map hexDigitValue hs)
        with (List.map hexDigitValue (h :: hs)) in H.
      rewrite digitsValue_hex in H. congruence.
    + destruct (leadingDigits_split_decimal body)
        as (ds & rest & E & Hds & Hr & L).
      rewrite L. intros H. right. exists ds, rest.
      split; [exact E|]. split; [reflexivity|].
      destruct ds as [|d ds]; [discriminate|].
      split; [discriminate|]. split; [exact Hds|]. split; [exact Hr|].
      cbn [List.map] in H.
      change ((Z.of_N d - 48)%Z :: List.map (fun c => Z.of_N c - 48)%Z ds)
        with (List.map (fun c => Z.of_N c - 48)%Z (d :: ds)) in H.
      rewrite digitsValue_decimal in H. congruence.
  - intros [(x & hs & rest & -> & Hx & Hne & Hhs & Hr & ->)
           |(ds & rest & -> & P & Hne & Hds & Hr & ->)].
    + assert (P : hexPrefixed (48%N :: x :: hs ++ rest) = true)
        by (destruct Hx as [->| ->]; reflexivity).
      rewrite P. cbn [skipn]. rewrite leadingDigits_hex by assumption.
      destruct hs as [|h hs]; [congruence|].
      cbn [List.map].
      change (hexDigitValue h :: List.map hexDigitValue hs)
        with (List.map hexDigitValue (h :: hs)).
      rewrite digitsValue_hex. reflexivity.
    + rewrite P, leadingDigits_decimal by assumption.
      destruct ds as [|d ds]; [congruence|].
      cbn [List.map].
      change ((Z.of_N d - 48)%Z :: List.map (fun c => Z.of_N c - 48)%Z ds)
        with (List.map (fun c => Z.of_N c - 48)%Z (d :: ds)).
      rewrite digitsValue_decimal. reflexivity.
Qed.

(** A numeral starts with a decimal digit. *)
Lemma Numeral_head (body : jsstring) (v : Z) :
  Numeral body v ->
  exists c r, body = c :: r /\ isDecimalDigit c = true.
Proof.
  intros [(x & hs & rest & -> & _)|(ds & rest & -> & _ & Hne & Hds & _)].
  - exists 48%N, (x :: hs ++ rest). split; reflexivity.
  - destruct ds as [|d ds]; [congruence|].
    exists d, (ds ++ rest). split; [reflexivity|].
    simpl in Hds. apply andb_true_iff in Hds. tauto.
Qed.

(** What [parseInt] reads is the leading integer of the string. *)
Lemma LeadingInteger_read (s : jsstring) (n : Z) :
  LeadingInteger s n ->
  exists sign mathInt,
    readInteger s = Some (sign, mathInt)
    /\ (sign = 1 \/ sign = -1)%Z
    /\ n = (sign * mathInt)%Z.
Proof.
  intros (ws & sg & body & v & -> & Hws & Hsg & Hn).
  unfold readInteger. rewrite trimStart_whitespace by assumption.
  pose proof (proj2 (numeralOf_Numeral body v) Hn) as R.
  destruct (@Numeral_head body v Hn) as (c & r & -> & Hc).
  destruct (decimal_digit_facts c Hc) as (W & M & Pl & _).
  destruct Hsg as [[[->| ->] ->]|[-> ->]].
  - cbn [app trimStart signed]. rewrite W. cbn [signed]. rewrite M, Pl, R.
    exists 1%Z, v. split; [reflexivity|]. split; [left; reflexivity | lia].
  - change (js "+" ++ c :: r) with (43%N :: c :: r).
    cbn [trimStart isWhiteSpace signed N.eqb Pos.eqb]. rewrite R.
    exists 1%Z, v. split; [reflexivity|]. split; [left; reflexivity | lia].
  - change (js "-" ++ c :: r) with (45%N :: c :: r).
    cbn [trimStart isWhiteSpace signed N.eqb Pos.eqb]. rewrite R.
    exists (-1)%Z, v. split; [reflexivity|]. split; [right; reflexivity | lia].
Qed.

Lemma read_LeadingInteger (s : jsstring) (sign mathInt : Z) :
  readInteger s = Some (sign, mathInt) ->
  LeadingInteger s (sign * mathInt).
Proof.
  unfold readInteger. destruct (trimStart_split s) as (ws & Hws & E).
  revert E. generalize (trimStart s). intros S0 E. unfold signed.
  destruct S0 as [|c r];
    [|destruct (N.eqb_spec c 45) as [Hc|_];
      [|destruct (N.eqb_spec c 43) as [Hc|_]]];
    (destruct (numeralOf _) as [v|] eqn:Nv; [|discriminate]);
    intros [= <- <-]; apply numeralOf_Numeral in Nv.
  - exists ws, [], [], v.
    split; [exact E|]. split; [exact Hws|].
    split; [left; split; [left; reflexivity | lia] | exact Nv].
  - exists ws, (js "-"), r, v.
    split; [rewrite E, Hc; reflexivity|]. split; [exact Hws|].
    split; [right; split; [reflexivity | lia] | exact Nv].
  - exists ws, (js "+"), r, v.
    split; [rewrite E, Hc; reflexivity|]. split; [exact Hws|].
    split; [left; split; [right; reflexivity | lia] | exact Nv].
  - exists ws, [], (c :: r), v.
    split; [exact E|]. split; [exact Hws|].
    split; [left; split; [left; reflexivity | lia] | exact Nv].
Qed.

(** [parseNumber] on a string with a leading integer. *)
Lemma parseNumber_LeadingInteger (s : jsstring) (n : Z) :
  LeadingInteger s n ->
  parseNumber s = if (n =? 0)%Z then None else Some (toNumber n).
Proof.
  intros H. destruct (@LeadingInteger_read s n H) as (sign & m & R & Hs & ->).
  unfold parseNumber. rewrite parseInt_steps, R. unfold numberOf.
  destruct (Z.eqb_spec m 0) as [->|Hm].
  - rewrite Z.mul_0_r. reflexivity.
  - destruct (Z.eqb_spec (sign * m) 0) as [E|E]; [nia|].
    rewrite toNumber_truthy by assumption. reflexivity.
Qed.

(** [parseNumber] on a string without one. *)
Lemma parseNumber_no_LeadingInteger (s : jsstring) :
  (forall n, ~ LeadingInteger s n) -> parseNumber s = None.
Proof.
  intros H. unfold parseNumber. rewrite parseInt_steps.
  destruct (readInteger s) as [[sign m]|] eqn:R; [|reflexivity].
  exfalso. exact (H _ (@read_LeadingInteger s sign m R)).
Qed.

(** C6, as stated, fails on long numerals: [parseInt] returns a double, and
    the leading integer 9007199254740993 is not one; the Number returned
    for it is the integer 9007199254740992. A numeral of four hundred
    digits gives [Infinity], which is no integer at all. *)
Lemma parseNumber_rounds_long_numeral :
  LeadingInteger (js "9007199254740993") 9007199254740993
  /\ parseNumber (js "9007199254740993") = Some (toNumber 9007199254740992)
  /\ integerOf (toNumber 9007199254740992) = Some 9007199254740992%Z
  /\ parseNumber (repeat 57%N 400) = Some (S754_infinity false)
  /\ integerOf (S754_infinity false) = None.
Proof.
  split.
  - exists [], [], (js "9007199254740993"), 9007199254740993%Z.
    split; [reflexivity|]. split; [reflexivity|].
    split; [left; split; [left; reflexivity | reflexivity]|].
    right. exists (js "9007199254740993"), [].
    split; [reflexivity|]. split; [reflexivity|].
    split; [discriminate|]. split; [reflexivity|].
    split; [exact I | reflexivity].
  - split; [vm_compute; reflexivity|].
    split; [vm_compute; reflexivity|].
    split; [vm_compute; reflexivity | reflexivity].
Qed.

(** C6 (amended). For every input string, [parseNumber] returns the Number
    (the double) nearest to the leading integer of the string when that
    integer is not zero, which is the integer itself whenever its magnitude
    is at most 2^53; it returns [undefined] when the string has no leading
    integer (parsing fails) or when the integer is zero; in particular
    [parseNumber("0")] is [undefined]. The leading integer is read after
    white space and at most one sign, in hexadecimal after ["0x"] or
    ["0X"] and in decimal otherwise. *)
Theorem parseNumber_zero_is_absent :
  forall s : jsstring,
    (forall n,
        LeadingInteger s n ->
        parseNumber s = if (n =? 0)%Z then None else Some (toNumber n))
    /\ ((forall n, ~ LeadingInteger s n) -> parseNumber s = None)
    /\ (forall n,
          LeadingInteger s n -> n <> 0%Z -> (Z.abs n <= 2 ^ 53)%Z ->
          exists x, parseNumber s = Some x /\ integerOf x = Some n)
    /\ parseNumber (js "0") = None.
Proof.
  intros s. split; [|split; [|split]].
  - intros n H. apply parseNumber_LeadingInteger, H.
  - apply parseNumber_no_LeadingInteger.
  - intros n H Hn Hb. exists (toNumber n). split.
    + rewrite (@parseNumber_LeadingInteger s n H).
      destruct (Z.eqb_spec n 0); [contradiction | reflexivity].
    + apply toNumber_exact, Hb.
  - reflexivity.
Qed.

(* ================================================================= *)
(** ** Concrete runs *)

Example parseParameters_repeated :
  parseParameters (js "A=1,A=2") =
  [ {| ParameterKey := js "A"; ParameterValue := Some (js "1,2") |} ].
Proof. reflexivity. Qed.

Example parseParameters_mixed :
  parseParameters (js "A=,B=x, A=2 ,C") =
  [ {| ParameterKey := js "A"; ParameterValue := Some (js "2") |};
    {| ParameterKey := js "B"; ParameterValue := Some (js "x") |};
    {| ParameterKey := js "C"; ParameterValue := None |} ].
Proof. reflexivity. Qed.

Example parseParameters_missing_later_value :
  parseParameters (js "A=1,A") =
  [ {| ParameterKey := js "A"; ParameterValue := Some (js "1,") |} ].
Proof. reflexivity. Qed.

Example parseNumber_leading :
  parseNumber (js " -12px") = Some (toNumber (-12)).
Proof. reflexivity. Qed.

Example parseNumber_hex : parseNumber (js "0x1f") = Some (toNumber 31).
Proof. reflexivity. Qed.

Example parseNumber_minus_zero : parseNumber (js "-0") = None.
Proof. reflexivity. Qed.

Example parseNumber_not_a_number : parseNumber (js "abc") = None.
Proof. reflexivity. Qed.

(** The end-to-end run of the specification: an existing stack, an empty
    change set, empty change sets counted as a success. *)
Example deployStack_empty_change_set :
  deployStack plain_runtime
    (empty_change_set_provider (Some (js "No updates are to be performed"))
       (Resolved tt))
    sample_params true false false [] =
  (Resolved (Some (js "arn:stack/MockStack/1")),
   [ DescribeStacks (js "MockStack");
     CreateChangeSet (changeSetInput sample_params);
     WaitFor (changeSetCreateComplete (ref_of (changeSetInput sample_params)));
     DescribeChangeSet (ref_of (changeSetInput sample_params));
     DeleteChangeSet (ref_of (changeSetInput sample_params)) ]).
Proof. reflexivity. Qed.

Example deployStack_update :
  deployStack plain_runtime updating_provider sample_params
    false false false [] =
  (Resolved (Some (js "arn:stack/MockStack/1")),
   [ DescribeStacks (js "MockStack");
     CreateChangeSet (changeSetInput sample_params);
     WaitFor (changeSetCreateComplete (ref_of (changeSetInput sample_params)));
     ExecuteChangeSet (ref_of (changeSetInput sample_params));
     WaitFor (stackUpdateComplete (Some (js "arn:stack/MockStack/1"))) ]).
Proof. reflexivity. Qed.

Example getStack_absent :
  getStack absent_stack_provider (js "MockStack") [] =
  (Resolved None, [DescribeStacks (js "MockStack")]).
Proof. reflexivity. Qed.

Example getStack_throttled :
  getStack (failing_lookup_provider throttled) (js "MockStack") [] =
  (Rejected throttled, [DescribeStacks (js "MockStack")]).
Proof. reflexivity. Qed.

Example getStack_other_validation_error :
  getStack (failing_lookup_provider invalid_template) (js "MockStack") [] =
  (Rejected invalid_template, [DescribeStacks (js "MockStack")]).
Proof. reflexivity. Qed.

Example deployStack_lookup_error :
  deployStack plain_runtime (failing_lookup_provider throttled) sample_params
    true false false [] =
  (Rejected throttled, [DescribeStacks (js "MockStack")]).
Proof. reflexivity. Qed.

(** With [noExecuteChageSet], the change set is created and its link is
    asked for, but it is not executed. *)
Example deployStack_no_execute :
  exists r,
    deployStack plain_runtime updating_provider sample_params
      false true false [] =
    (Resolved (Some (js "arn:stack/MockStack/1")),
     [ DescribeStacks (js "MockStack");
       CreateChangeSet (changeSetInput sample_params);
       WaitFor
         (changeSetCreateComplete (ref_of (changeSetInput sample_params)));
       HttpPost r ]).
Proof. eexists. reflexivity. Qed.

Example getStackOutputs_absent :
  getStackOutputs absent_stack_provider (js "MockStack") [] =
  (Resolved [], [DescribeStacks (js "MockStack")]).
Proof. reflexivity. Qed.

(* ================================================================= *)
(** ** The built-in string operations, further facts *)

Lemma join_cons (sep a : jsstring) (b : jsstring) (l : list jsstring) :
  join sep (a :: b :: l) = a ++ sep ++ join sep (b :: l).
Proof. reflexivity. Qed.

(** Joining the pieces of a split gives the string back. *)
Lemma join_split (sep : N) (s : jsstring) :
  join [sep] (pieces (split sep s)) = s.
Proof.
  induction s as [|c s IH]; [reflexivity|].
  simpl. destruct (split sep s) as [p ps]. unfold pieces in *. simpl in *.
  destruct (N.eqb_spec c sep) as [->|_]; simpl.
  - rewrite IH. reflexivity.
  - destruct ps as [|q ps]; simpl in *; rewrite <- IH; reflexivity.
Qed.

(** No piece of a split holds the separator. *)
Lemma split_pieces_free (sep : N) (s : jsstring) :
  Forall (fun p => ~ In sep p) (pieces (split sep s)).
Proof.
  induction s as [|c s IH]; [repeat constructor; simpl; tauto|].
  simpl. destruct (split sep s) as [p ps]. unfold pieces in *. simpl in *.
  inversion IH as [|? ? Hp Hps]; subst.
  destruct (N.eqb_spec c sep) as [->|Hc]; simpl.
  - constructor; [simpl; tauto | constructor; assumption].
  - constructor; [simpl; intros [E|E]; [congruence | tauto] | assumption].
Qed.

Lemma split_length (sep : N) (s : jsstring) :
  List.length (pieces (split sep s)) = S (count_occ N.eq_dec s sep).
Proof.
  induction s as [|c s IH]; [reflexivity|].
  simpl. destruct (split sep s) as [p ps]. unfold pieces in *. simpl in *.
  destruct (N.eqb_spec c sep) as [->|Hc]; simpl.
  - destruct (N.eq_dec sep sep); [|congruence]. rewrite <- IH. reflexivity.
  - destruct (N.eq_dec c sep); [congruence|]. exact IH.
Qed.

Lemma trimStart_fixed (s : jsstring) :
  match s with c :: _ => isWhiteSpace c = false | [] => True end ->
  trimStart s = s.
Proof. destruct s as [|c s]; simpl; [reflexivity | intros ->; reflexivity]. Qed.

Lemma trimStart_head (s : jsstring) :
  match trimStart s with c :: _ => isWhiteSpace c = false | [] => True end.
Proof.
  induction s as [|c s IH]; simpl; [exact I|].
  destruct (isWhiteSpace c) eqn:E; [exact IH | exact E].
Qed.

Lemma trimStart_idempotent (s : jsstring) :
  trimStart (trimStart s) = trimStart s.
Proof. apply trimStart_fixed, trimStart_head. Qed.

Lemma trimStart_In (x : N) (s : jsstring) : In x (trimStart s) -> In x s.
Proof.
  induction s as [|c s IH]; simpl; [tauto|].
  destruct (isWhiteSpace c); simpl; tauto.
Qed.

Lemma trimStart_keeps_last (l : jsstring) (c : N) :
  isWhiteSpace c = false -> exists l', trimStart (l ++ [c]) = l' ++ [c].
Proof.
  intros Hc. induction l as [|x l IH]; simpl.
  - rewrite Hc. exists []; reflexivity.
  - destruct (isWhiteSpace x); [exact IH | exists (x :: l); reflexivity].
Qed.

Lemma trimEnd_head (s : jsstring) :
  match s with c :: _ => isWhiteSpace c = false | [] => True end ->
  match trimEnd s with c :: _ => isWhiteSpace c = false | [] => True end.
Proof.
  destruct s as [|c s]; [intros _; exact I|]. intros Hc.
  unfold trimEnd. simpl rev.
  destruct (trimStart_keeps_last (rev s) c Hc) as [l' ->].
  rewrite rev_app_distr. simpl. exact Hc.
Qed.

Lemma trimEnd_idempotent (s : jsstring) : trimEnd (trimEnd s) = trimEnd s.
Proof.
  unfold trimEnd. rewrite rev_involutive, trimStart_idempotent. reflexivity.
Qed.

(** Trimming twice is trimming once. *)
Lemma trim_idempotent (s : jsstring) : trim (trim s) = trim s.
Proof.
  unfold trim at 1.
  rewrite (trimStart_fixed (trim s)).
  - unfold trim. apply trimEnd_idempotent.
  - unfold trim. apply trimEnd_head, trimStart_head.
Qed.

Lemma trim_In (x : N) (s : jsstring) : In x (trim s) -> In x s.
Proof.
  unfold trim, trimEnd. rewrite <- in_rev. intros H.
  apply trimStart_In in H. rewrite <- in_rev in H.
  apply trimStart_In, H.
Qed.

(* ================================================================= *)
(** ** parseARNs *)

(** X1. What [parseARNs] returns is never an empty list, none of its
    elements holds a comma, and joined with commas the elements give the
    input back. *)
Theorem parseARNs_join :
  forall (s : jsstring) (arns : list jsstring),
    parseARNs (Some s) = Some arns ->
    join [comma] arns = s
    /\ arns <> []
    /\ Forall (fun arn => ~ In comma arn) arns.
Proof.
  intros s arns. destruct s as [|c r]; [discriminate|].
  intros [= <-]. split; [exact (join_split comma (c :: r))|].
  split; [|exact (split_pieces_free comma (c :: r))].
  unfold pieces; discriminate.
Qed.

Lemma parseARNs_join_witness :
  parseARNs (Some (js "arn:a,arn:b")) = Some [js "arn:a"; js "arn:b"]
  /\ join [comma] [js "arn:a"; js "arn:b"] = js "arn:a,arn:b".
Proof.
  split; [reflexivity|].
  exact (proj1
           (@parseARNs_join (js "arn:a,arn:b") [js "arn:a"; js "arn:b"]
              eq_refl)).
Defined.

(** X2. A non-empty list of comma-free strings, joined with commas, is
    parsed back into the same list, provided the joined text is not empty
    (the list is not the empty string alone). *)
Theorem parseARNs_of_join :
  forall (arn : jsstring) (arns : list jsstring),
    Forall (fun a => ~ In comma a) (arn :: arns) ->
    join [comma] (arn :: arns) <> [] ->
    parseARNs (Some (join [comma] (arn :: arns))) = Some (arn :: arns).
Proof.
  intros arn arns H Hne.
  destruct (join [comma] (arn :: arns)) as [|c r] eqn:E; [congruence|].
  unfold parseARNs. rewrite <- E, split_join by assumption. reflexivity.
Qed.

Lemma parseARNs_of_join_witness :
  Forall (fun a => ~ In comma a) [js "arn:a"; []; js "arn:b"]
  /\ join [comma] [js "arn:a"; []; js "arn:b"] <> []
  /\ parseARNs (Some (js "arn:a,,arn:b")) =
     Some [js "arn:a"; []; js "arn:b"].
Proof.
  assert (H : Forall (fun a => ~ In comma a) [js "arn:a"; []; js "arn:b"])
    by (repeat constructor; vm_compute; intuition discriminate).
  assert (N : join [comma] [js "arn:a"; []; js "arn:b"] <> [])
    by discriminate.
  split; [exact H|]. split; [exact N|].
  exact (@parseARNs_of_join (js "arn:a") [[]; js "arn:b"] H N).
Defined.

(* ================================================================= *)
(** ** parseParameters, further properties *)

(** X3. The keys of the entries [parseParameters] returns are pairwise
    distinct, and they are exactly the keys of the pieces of the input. *)
Theorem parseParameters_keys_distinct :
  forall s : jsstring,
    NoDup (List.map ParameterKey (parseParameters s))
    /\ forall k,
         In k (List.map ParameterKey (parseParameters s)) <->
         In k (List.map fst (pairs s)).
Proof.
  intros s. rewrite parseParameters_keys. split.
  - apply first_seen_NoDup.
  - intros k. apply first_seen_In.
Qed.

Lemma first_seen_length (ks : list jsstring) :
  List.length (first_seen ks) <= List.length ks.
Proof.
  induction ks as [|k ks IH]; simpl; [lia|].
  pose proof (filter_length_le (fun k' => negb (str_eqb k' k))
                (first_seen ks)).
  lia.
Qed.

(** X4. [parseParameters] returns at least one entry, also for the empty
    string, and at most one entry per comma-separated piece. *)
Theorem parseParameters_length :
  forall s : jsstring,
    1 <= List.length (parseParameters s)
    /\ List.length (parseParameters s) <= S (count_occ N.eq_dec s comma).
Proof.
  intros s.
  rewrite <- (length_map ParameterKey), parseParameters_keys.
  rewrite <- split_length. split.
  - unfold pairs, pieces. simpl. lia.
  - pose proof (first_seen_length (List.map fst (pairs s))) as H.
    unfold pairs in H at 2. rewrite !length_map in H. exact H.
Qed.

Lemma key_value_trim (p : jsstring) : key_value (trim p) = key_value p.
Proof. unfold key_value. rewrite trim_idempotent. reflexivity. Qed.

(** X5. White space around the comma-separated pieces does not count: the
    result is the same when every piece is trimmed beforehand. *)
Theorem parseParameters_ignores_outer_space :
  forall (p : jsstring) (ps : list jsstring),
    Forall (fun x => ~ In comma x) (p :: ps) ->
    parseParameters (join [comma] (p :: ps)) =
    parseParameters (join [comma] (List.map trim (p :: ps))).
Proof.
  intros p ps H. apply parseParameters_pairs.
  rewrite !pairs_join.
  - rewrite map_map. apply map_ext. intros x. symmetry. apply key_value_trim.
  - discriminate.
  - apply Forall_map. eapply Forall_impl; [|exact H].
    intros x Hx Hin. apply Hx. eapply trim_In, Hin.
  - discriminate.
  - exact H.
Qed.

Lemma parseParameters_ignores_outer_space_witness :
  Forall (fun x => ~ In comma x) [js " A=1 "; js "  B=2"]
  /\ parseParameters (js " A=1 ,  B=2") = parseParameters (js "A=1,B=2").
Proof.
  assert (H : Forall (fun x => ~ In comma x) [js " A=1 "; js "  B=2"])
    by (repeat constructor; vm_compute; intuition discriminate).
  split; [exact H|].
  exact (@parseParameters_ignores_outer_space (js " A=1 ") [js "  B=2"] H).
Defined.

Lemma accumulate_falsy (param value : option jsstring) :
  truthy param = false -> accumulate param value = value.
Proof.
  destruct param as [[|c p]|]; simpl;
    [reflexivity | discriminate | reflexivity].
Qed.

Lemma last_cons_default {A} (x : A) (l : list A) (d d' : A) :
  last (x :: l) d = last (x :: l) d'.
Proof.
  revert x; induction l as [|y l IH]; intros x; [reflexivity|].
  change (last (y :: l) d = last (y :: l) d'). apply IH.
Qed.

(** What the accumulator ends with, from a falsy start: the values from
    the first truthy one on, joined; failing one, the last value seen. *)
Lemma fold_accumulate_falsy (vs : list (option jsstring)) :
  forall acc,
    truthy acc = false ->
    fold_left accumulate vs acc =
    match drop_falsy vs with
    | [] => last vs acc
    | kept => Some (join [comma] (List.map value_text kept))
    end.
Proof.
  induction vs as [|v vs IH]; intros acc Hacc; [reflexivity|].
  cbn [fold_left drop_falsy]. rewrite accumulate_falsy by assumption.
  destruct (truthy v) eqn:Hv.
  - destruct v as [[|c p]|]; try discriminate.
    rewrite accumulate_nonempty. reflexivity.
  - rewrite IH by assumption.
    destruct (drop_falsy vs); [|reflexivity].
    destruct vs as [|o vs]; [reflexivity|].
    change (last (v :: o :: vs) acc) with (last (o :: vs) acc).
    apply last_cons_default.
Qed.

(** X6. The value of the entry of a key, in general: the values given to
    the key are joined with commas from the first non-empty one on; empty
    or missing values before it are dropped. When no value of the key is
    non-empty, the entry holds the last one (empty or [undefined]). *)
Theorem parseParameters_value :
  forall (s k : jsstring),
    In k (List.map fst (pairs s)) ->
    let vs := values_of k (pairs s) in
    entries_for k (parseParameters s) =
    [ {| ParameterKey := k;
         ParameterValue :=
           match drop_falsy vs with
           | [] => last vs None
           | kept => Some (join [comma] (List.map value_text kept))
           end |} ].
Proof.
  intros s k H vs. rewrite entries_for_key by assumption.
  subst vs. rewrite fold_accumulate_falsy by reflexivity. reflexivity.
Qed.

Lemma parseParameters_value_witness :
  In (js "A") (List.map fst (pairs (js "A=,A,A=1,B=x,A=,A=2")))
  /\ entries_for (js "A") (parseParameters (js "A=,A,A=1,B=x,A=,A=2")) =
     [ {| ParameterKey := js "A"; ParameterValue := Some (js "1,,2") |} ].
Proof.
  assert (H : In (js "A")
                (List.map fst (pairs (js "A=,A,A=1,B=x,A=,A=2"))))
    by (left; reflexivity).
  split; [exact H|].
  exact (@parseParameters_value (js "A=,A,A=1,B=x,A=,A=2") (js "A") H).
Defined.

(* ================================================================= *)
(** ** parseNumber, further properties *)

(** X7. Leading white space does not count for [parseNumber], and a string
    of white space only, the empty string included, gives [undefined]. *)
Theorem parseNumber_leading_space :
  forall ws s : jsstring,
    forallb isWhiteSpace ws = true ->
    parseNumber (ws ++ s) = parseNumber s /\ parseNumber ws = None.
Proof.
  intros ws s H.
  assert (E : forall t, parseNumber (ws ++ t) = parseNumber t).
  { intros t. unfold parseNumber, parseInt.
    rewrite trimStart_whitespace by assumption. reflexivity. }
  split; [apply E|].
  rewrite <- (app_nil_r ws), E. reflexivity.
Qed.

Lemma parseNumber_leading_space_witness :
  forallb isWhiteSpace (js "   ") = true
  /\ parseNumber (js "   " ++ js "15") = parseNumber (js "15")
  /\ parseNumber (js "   ") = None.
Proof.
  split; [reflexivity|].
  exact (@parseNumber_leading_space (js "   ") (js "15") eq_refl).
Defined.

Lemma truthyNumber_opp (x : Number) :
  truthyNumber (SFopp x) = truthyNumber x.
Proof. destruct x; reflexivity. Qed.

(** X8. A minus sign in front negates what [parseNumber] reads, and a plus
    sign changes nothing, provided the rest does not itself start with a
    sign or with white space. *)
Theorem parseNumber_sign :
  forall s : jsstring,
    signedOrSpaced s = false ->
    parseNumber (js "-" ++ s) = option_map SFopp (parseNumber s)
    /\ parseNumber (js "+" ++ s) = parseNumber s.
Proof.
  intros s H.
  assert (E0 : readInteger s =
               match numeralOf s with
               | Some m => Some (1%Z, m)
               | None => None
               end).
  { unfold readInteger. destruct s as [|c s]; [reflexivity|].
    simpl in H. apply orb_false_iff in H. destruct H as [H Hp].
    apply orb_false_iff in H. destruct H as [Hw Hm].
    cbn [trimStart]. rewrite Hw. cbn [signed]. rewrite Hm, Hp. reflexivity. }
  assert (E1 : readInteger (js "-" ++ s) =
               match numeralOf s with
               | Some m => Some ((-1)%Z, m)
               | None => None
               end) by reflexivity.
  assert (E2 : readInteger (js "+" ++ s) =
               match numeralOf s with
               | Some m => Some (1%Z, m)
               | None => None
               end) by reflexivity.
  unfold parseNumber. rewrite !parseInt_steps, E0, E1, E2.
  destruct (numeralOf s) as [m|]; [|split; reflexivity].
  unfold numberOf. destruct (Z.eqb_spec m 0) as [->|Hm];
    [split; reflexivity|].
  split; [|reflexivity].
  replace (-1 * m)%Z with (- (1 * m))%Z by lia.
  rewrite toNumber_opp by lia.
  rewrite truthyNumber_opp, toNumber_truthy by lia. reflexivity.
Qed.

Lemma parseNumber_sign_witness :
  signedOrSpaced (js "30s") = false
  /\ parseNumber (js "-30s") = Some (toNumber (-30))
  /\ parseNumber (js "+30s") = Some (toNumber 30).
Proof.
  split; [reflexivity|].
  exact (@parseNumber_sign (js "30s") eq_refl).
Defined.

(** X9. After ["0x"] or ["0X"], [parseNumber] reads hexadecimal digits: it
    returns the Number nearest to the integer they write, [undefined]
    when that integer is zero, and also [undefined] when no hexadecimal
    digit follows the prefix. *)
Theorem parseNumber_hexadecimal :
  forall (ws hs rest : jsstring) (x : N),
    forallb isWhiteSpace ws = true ->
    x = 120%N \/ x = 88%N ->
    forallb isHexDigit hs = true ->
    match rest with c :: _ => isHexDigit c = false | [] => True end ->
    parseNumber (ws ++ 48%N :: x :: hs ++ rest) =
    match hs with
    | [] => None
    | _ =>
        if (hexValue hs =? 0)%Z then None else Some (toNumber (hexValue hs))
    end.
Proof.
  intros ws hs rest x Hws Hx Hhs Hrest.
  assert (R : readInteger (ws ++ 48%N :: x :: hs ++ rest) =
              match hs with
              | [] => None
              | _ => Some (1%Z, hexValue hs)
              end).
  { unfold readInteger. rewrite trimStart_whitespace by assumption.
    assert (P : hexPrefixed (48%N :: x :: hs ++ rest) = true)
      by (destruct Hx as [->| ->]; reflexivity).
    cbn [trimStart isWhiteSpace signed N.eqb Pos.eqb].
    unfold numeralOf. rewrite P. cbn [skipn].
    rewrite leadingDigits_hex by assumption.
    destruct hs as [|h hs]; [reflexivity|].
    cbn [List.map].
    change (hexDigitValue h :: List.map hexDigitValue hs)
      with (List.map hexDigitValue (h :: hs)).
    rewrite digitsValue_hex. reflexivity. }
  unfold parseNumber. rewrite parseInt_steps, R.
  destruct hs as [|h hs]; [reflexivity|].
  unfold numberOf. rewrite Z.mul_1_l.
  destruct (Z.eqb_spec (hexValue (h :: hs)) 0) as [E|E]; [reflexivity|].
  rewrite toNumber_truthy by assumption. reflexivity.
Qed.

Lemma parseNumber_hexadecimal_witness :
  parseNumber (js " " ++ 48%N :: 120%N :: js "1F" ++ js " min")
  = Some (toNumber 31).
Proof.
  exact (@parseNumber_hexadecimal (js " ") (js "1F") (js " min") 120%N
           eq_refl (or_introl eq_refl) eq_refl eq_refl).
Defined.

(* ================================================================= *)
(** ** genCfnUrl *)

Lemma genCfnUrl_run (rt : Runtime.t) (stackArn changeSetArn : option jsstring)
    (h : Log) :
  genCfnUrl rt stackArn changeSetArn h =
  match Runtime.encodeURIComponent rt (template stackArn) with
  | Rejected e => (Rejected e, h)
  | Resolved stackId =>
      match Runtime.encodeURIComponent rt (template changeSetArn) with
      | Rejected e => (Rejected e, h)
      | Resolved changeSetId =>
          let request :=
            shortenRequest rt
              (consoleUrl (Runtime.region rt) stackId changeSetId) in
          (match Runtime.axios_post rt h request with
           | Resolved short => Resolved (UrlShortenerResponse.link short)
           | Rejected e => Rejected e
           end,
           h ++ [HttpPost request])
      end
  end.
Proof.
  unfold genCfnUrl, bind, lift, promise, ret.
  destruct (Runtime.encodeURIComponent rt (template stackArn)) as [a|e];
    [|reflexivity].
  destruct (Runtime.encodeURIComponent rt (template changeSetArn)) as [b|e];
    [|reflexivity].
  cbv zeta. unfold shortenRequest, consoleUrl, consoleHome.
  destruct (Runtime.axios_post rt h _); reflexivity.
Qed.

(** X10. [genCfnUrl] sends at most one request, to the link shortener, for
    a long URL that starts with the console address and carries the two
    encoded identifiers; it sends none when an identifier cannot be
    encoded. The link it returns is the one the shortener answered: when
    the shortener rejects the request there is no fall-back to the long
    URL, the error is raised. *)
Theorem genCfnUrl_requests :
  forall (rt : Runtime.t) (stackArn changeSetArn : option jsstring) (h : Log),
    let run := genCfnUrl rt stackArn changeSetArn h in
    (snd run = h
     /\ (exists e, fst run = Rejected e)
     /\ (forall a b,
           Runtime.encodeURIComponent rt (template stackArn) = Resolved a ->
           Runtime.encodeURIComponent rt (template changeSetArn)
             = Resolved b ->
           False))
    \/ (exists a b,
          Runtime.encodeURIComponent rt (template stackArn) = Resolved a
          /\ Runtime.encodeURIComponent rt (template changeSetArn)
             = Resolved b
          /\ let request :=
               shortenRequest rt (consoleUrl (Runtime.region rt) a b) in
             snd run = h ++ [HttpPost request]
             /\ startsWith consoleHome (ShortenRequest.long_url request)
                = true
             /\ includes (ShortenRequest.long_url request)
                  (js "?stackId=" ++ a ++ js "&changeSetId=" ++ b) = true
             /\ match Runtime.axios_post rt h request with
                | Resolved short =>
                    fst run = Resolved (UrlShortenerResponse.link short)
                | Rejected e => fst run = Rejected e
                end).
Proof.
  intros rt stackArn changeSetArn h run. subst run.
  rewrite genCfnUrl_run.
  destruct (Runtime.encodeURIComponent rt (template stackArn)) as [a|e].
  2:{ left. split; [reflexivity|]. split; [exists e; reflexivity|].
      intros a b H; discriminate H. }
  destruct (Runtime.encodeURIComponent rt (template changeSetArn)) as [b|e].
  2:{ left. split; [reflexivity|]. split; [exists e; reflexivity|].
      intros a' b H H'; discriminate H'. }
  right. exists a, b. split; [reflexivity|]. split; [reflexivity|].
  cbv zeta. split; [reflexivity|]. split; [|split].
  - apply startsWith_spec. eexists. reflexivity.
  - apply includes_spec.
    exists (consoleHome
            ++ js "?region=" ++ template (Runtime.region rt)
            ++ js "#/stacks/changesets/changes"), [].
    unfold shortenRequest, consoleUrl. cbn [ShortenRequest.long_url].
    rewrite app_nil_r, <- !app_assoc. reflexivity.
  - destruct (Runtime.axios_post rt h _); reflexivity.
Qed.

(* ================================================================= *)
(** ** updateStack, further properties *)

Lemma updateStack_run (rt : Runtime.t) (cfn : CloudFormation.t)
    (stack : Stack.t) (params : CreateChangeSetInput.t)
    (noEmpty noExecute noDelete : bool) (h : Log) :
  updateStack rt cfn stack params noEmpty noExecute noDelete h =
  let ref := ref_of params in
  let created := CreateChangeSet params in
  let waited := WaitFor (changeSetCreateComplete ref) in
  match CloudFormation.createChangeSet cfn h params with
  | Rejected e => (Rejected e, h ++ [created])
  | Resolved cset =>
      match
        CloudFormation.waitFor cfn (h ++ [created])
          (changeSetCreateComplete ref)
      with
      | Rejected _ =>
          cleanupChangeSet cfn stack params noEmpty noDelete
            (h ++ [created; waited])
      | Resolved _ =>
          if noExecute then
            let (link, h') :=
              genCfnUrl rt (Stack.StackId stack)
                (CreateChangeSetOutput.Id cset) (h ++ [created; waited]) in
            match link with
            | Resolved _ => (Resolved (Stack.StackId stack), h')
            | Rejected e => (Rejected e, h')
            end
          else
            let executed := ExecuteChangeSet ref in
            let updated :=
              WaitFor (stackUpdateComplete (Stack.StackId stack)) in
            match
              CloudFormation.executeChangeSet cfn (h ++ [created; waited]) ref
            with
            | Rejected e => (Rejected e, h ++ [created; waited; executed])
            | Resolved _ =>
                match
                  CloudFormation.waitFor cfn
                    (h ++ [created; waited; executed])
                    (stackUpdateComplete (Stack.StackId stack))
                with
                | Resolved _ =>
                    (Resolved (Stack.StackId stack),
                     h ++ [created; waited; executed; updated])
                | Rejected e =>
                    (Rejected e, h ++ [created; waited; executed; updated])
                end
            end
      end
  end.
Proof.
  unfold updateStack, bind, attempt, promise, ret. cbv zeta.
  destruct (CloudFormation.createChangeSet cfn h params) as [cset|e];
    [|reflexivity].
  destruct (CloudFormation.waitFor cfn _ _) as [[]|e];
    rewrite <- ?app_assoc; cbn [app]; [|reflexivity].
  destruct noExecute.
  - destruct (genCfnUrl rt _ _ _) as [[link|e] h']; reflexivity.
  - destruct (CloudFormation.executeChangeSet cfn _ _) as [[]|e];
      rewrite <- ?app_assoc; cbn [app]; [|reflexivity].
    destruct (CloudFormation.waitFor cfn _ _) as [[]|e];
      rewrite <- ?app_assoc; reflexivity.
Qed.

(** The requests [updateStack] may issue, by kind and by flag. *)
Lemma emits_updateStack (P : Request -> Prop) (rt : Runtime.t)
    (cfn : CloudFormation.t) (stack : Stack.t)
    (params : CreateChangeSetInput.t) (noEmpty noExecute noDelete : bool) :
  P (CreateChangeSet params) ->
  P (WaitFor (changeSetCreateComplete (ref_of params))) ->
  P (DescribeChangeSet (ref_of params)) ->
  (noDelete = false -> P (DeleteChangeSet (ref_of params))) ->
  (noExecute = true -> forall q, P (HttpPost q)) ->
  (noExecute = false ->
   P (ExecuteChangeSet (ref_of params))
   /\ P (WaitFor (stackUpdateComplete (Stack.StackId stack)))) ->
  emits P (updateStack rt cfn stack params noEmpty noExecute noDelete).
Proof.
  intros Hc Hw Hd Hdel Hpost Hexec. unfold updateStack.
  apply emits_bind; [apply emits_promise, Hc | intros cset].
  apply emits_bind; [apply emits_attempt, emits_promise, Hw|].
  intros [[]|e].
  - destruct noExecute.
    + apply emits_bind; [|intros _; apply emits_ret].
      apply emits_genCfnUrl. apply Hpost. reflexivity.
    + destruct (Hexec eq_refl) as [He Hu].
      apply emits_bind; [apply emits_promise, He | intros _].
      apply emits_bind; [apply emits_promise, Hu | intros _; apply emits_ret].
  - unfold cleanupChangeSet.
    apply emits_bind; [apply emits_promise, Hd | intros status].
    destruct (isFailed _); [|apply emits_ret].
    apply emits_bind.
    + destruct noDelete; [apply emits_ret|].
      apply emits_promise, Hdel. reflexivity.
    + intros _. destruct (noEmpty && _); [apply emits_ret | apply emits_throw].
Qed.

Lemma Forall_existsb_false {A} (f : A -> bool) (l : list A) :
  Forall (fun x => f x = false) l -> existsb f l = false.
Proof.
  induction 1 as [|x l Hx Hl IH]; simpl; [reflexivity|].
  rewrite Hx, IH. reflexivity.
Qed.

(** X11. Whenever [updateStack] returns without an error, it returns the
    [StackId] of the stack it was given (which is [undefined] for a stack
    without one), or else [undefined] after the wait for the creation of
    the change set has failed. So for a stack that has an identifier,
    [undefined] is returned only after that wait has failed. Such a run
    issues at most four requests. *)
Theorem updateStack_result :
  forall (rt : Runtime.t) (cfn : CloudFormation.t) (stack : Stack.t)
         (params : CreateChangeSetInput.t)
         (noEmpty noExecute noDelete : bool) (h : Log)
         (result : option jsstring),
    let run := updateStack rt cfn stack params noEmpty noExecute noDelete h in
    fst run = Resolved result ->
    (result = Stack.StackId stack
     \/ (result = None
         /\ exists e,
              CloudFormation.waitFor cfn (h ++ [CreateChangeSet params])
                (changeSetCreateComplete (ref_of params)) = Rejected e))
    /\ (forall id,
          Stack.StackId stack = Some id ->
          result = None ->
          exists e,
            CloudFormation.waitFor cfn (h ++ [CreateChangeSet params])
              (changeSetCreateComplete (ref_of params)) = Rejected e)
    /\ exists issued, snd run = h ++ issued /\ List.length issued <= 4.
Proof.
  intros rt cfn stack params noEmpty noExecute noDelete h result run.
  enough (G : fst run = Resolved result ->
              (result = Stack.StackId stack
               \/ (result = None
                   /\ exists e,
                        CloudFormation.waitFor cfn
                          (h ++ [CreateChangeSet params])
                          (changeSetCreateComplete (ref_of params))
                        = Rejected e))
              /\ exists issued,
                   snd run = h ++ issued /\ List.length issued <= 4).
  { intros Hr. destruct (G Hr) as [[D|[D W]] L].
    - split; [left; exact D|]. split; [|exact L].
      intros id Hid Hn. congruence.
    - split; [right; split; assumption|]. split; [|exact L].
      intros id _ _. exact W. }
  subst run. rewrite updateStack_run. cbv zeta.
  destruct (CloudFormation.createChangeSet cfn h params) as [cset|e];
    [|discriminate].
  destruct (CloudFormation.waitFor cfn _ _) as [[]|e] eqn:W.
  - destruct noExecute.
    + rewrite genCfnUrl_run.
      destruct (Runtime.encodeURIComponent rt _) as [a|e]; [|discriminate].
      destruct (Runtime.encodeURIComponent rt _) as [b|e]; [|discriminate].
      cbv zeta.
      destruct (Runtime.axios_post rt _ _) as [short|e]; [|discriminate].
      cbn [fst snd]. intros [= <-]. split; [left; reflexivity|].
      rewrite <- app_assoc. eexists; split; [reflexivity | simpl; lia].
    + destruct (CloudFormation.executeChangeSet cfn _ _) as [[]|e];
        [|discriminate].
      destruct (CloudFormation.waitFor cfn _ (stackUpdateComplete _))
        as [[]|e]; [|discriminate].
      cbn [fst snd]. intros [= <-]. split; [left; reflexivity|].
      eexists; split; [reflexivity | simpl; lia].
  - rewrite cleanupChangeSet_run. cbv zeta.
    destruct (CloudFormation.describeChangeSet cfn _ _) as [status|e'];
      [|discriminate].
    destruct (isFailed _).
    + unfold verdict. destruct noDelete.
      * destruct (noEmpty && _); [|discriminate].
        cbn [fst snd]. intros [= <-]. split; [left; reflexivity|].
        rewrite <- app_assoc. eexists; split; [reflexivity | simpl; lia].
      * destruct (CloudFormation.deleteChangeSet cfn _ _) as [[]|e'];
          [|discriminate].
        destruct (noEmpty && _); [|discriminate].
        cbn [fst snd]. intros [= <-]. split; [left; reflexivity|].
        rewrite <- app_assoc. eexists; split; [reflexivity | simpl; lia].
    + cbn [fst snd]. intros [= <-].
      split; [right; split; [reflexivity | exists e; reflexivity]|].
      rewrite <- app_assoc. eexists; split; [reflexivity | simpl; lia].
Qed.

Lemma updateStack_result_witness :
  fst (updateStack plain_runtime pending_change_set_provider sample_stack
         (changeSetInput sample_params) true false false []) = Resolved None
  /\ exists e,
       CloudFormation.waitFor pending_change_set_provider
         ([] ++ [CreateChangeSet (changeSetInput sample_params)])
         (changeSetCreateComplete (ref_of (changeSetInput sample_params)))
       = Rejected e.
Proof.
  split; [reflexivity|].
  exact (proj1 (proj2
           (@updateStack_result plain_runtime pending_change_set_provider
              sample_stack (changeSetInput sample_params) true false false
              [] None eq_refl))
           (js "arn:stack/MockStack/1") eq_refl eq_refl).
Defined.

(** X12. With [noExecuteChageSet] set, [updateStack] never asks the
    provider to execute the change set and never waits for a stack
    update, whatever the provider answers. *)
Theorem updateStack_no_execute_never_executes :
  forall (rt : Runtime.t) (cfn : CloudFormation.t) (stack : Stack.t)
         (params : CreateChangeSetInput.t) (noEmpty noDelete : bool)
         (h : Log),
  exists issued,
    snd (updateStack rt cfn stack params noEmpty true noDelete h)
    = h ++ issued
    /\ existsb isExecuteChangeSet issued = false
    /\ existsb isStackUpdateWait issued = false.
Proof.
  intros rt cfn stack params noEmpty noDelete h.
  destruct (@emits_updateStack
              (fun r => isExecuteChangeSet r = false
                        /\ isStackUpdateWait r = false)
              rt cfn stack params noEmpty true noDelete) with (h := h)
    as [issued [E H]];
    try (intros; split; reflexivity); try discriminate.
  exists issued. split; [exact E|].
  split; apply Forall_existsb_false;
    (eapply Forall_impl; [|exact H]); simpl; tauto.
Qed.

(** X13. With [noDeleteFailedChangeSet] set, [updateStack] never deletes a
    change set, whatever the provider answers. *)
Theorem updateStack_no_delete_never_deletes :
  forall (rt : Runtime.t) (cfn : CloudFormation.t) (stack : Stack.t)
         (params : CreateChangeSetInput.t) (noEmpty noExecute : bool)
         (h : Log),
  exists issued,
    snd (updateStack rt cfn stack params noEmpty noExecute true h)
    = h ++ issued
    /\ existsb isDeleteChangeSet issued = false.
Proof.
  intros rt cfn stack params noEmpty noExecute h.
  destruct (@emits_updateStack (fun r => isDeleteChangeSet r = false)
              rt cfn stack params noEmpty noExecute true) with (h := h)
    as [issued [E H]];
    try (intros; reflexivity); try discriminate;
    try (intros; split; reflexivity).
  exists issued. split; [exact E|].
  apply Forall_existsb_false, H.
Qed.

Lemma updateStack_stays_with_change_set_aux (rt : Runtime.t)
    (cfn : CloudFormation.t) (stack : Stack.t)
    (params : CreateChangeSetInput.t) (noEmpty noExecute noDelete : bool)
    (h : Log) :
  exists issued,
    snd (updateStack rt cfn stack params noEmpty noExecute noDelete h)
    = h ++ issued
    /\ existsb isDescribeStacks issued = false
    /\ existsb isCreateStack issued = false.
Proof.
  destruct (@emits_updateStack
              (fun r => isDescribeStacks r = false /\ isCreateStack r = false)
              rt cfn stack params noEmpty noExecute noDelete) with (h := h)
    as [issued [E H]];
    try (intros; repeat split; auto; fail).
  exists issued. split; [exact E|].
  split; apply Forall_existsb_false;
    (eapply Forall_impl; [|exact H]); simpl; tauto.
Qed.

(** X14. [updateStack] never looks a stack up and never creates one; and
    it calls the link shortener only when [noExecuteChageSet] is set. *)
Theorem updateStack_stays_with_change_set :
  forall (rt : Runtime.t) (cfn : CloudFormation.t) (stack : Stack.t)
         (params : CreateChangeSetInput.t)
         (noEmpty noExecute noDelete : bool) (h : Log),
  exists issued,
    snd (updateStack rt cfn stack params noEmpty noExecute noDelete h)
    = h ++ issued
    /\ existsb isDescribeStacks issued = false
    /\ existsb isCreateStack issued = false
    /\ (noExecute = true \/ existsb isHttpPost issued = false).
Proof.
  intros rt cfn stack params noEmpty noExecute noDelete h.
  destruct (@emits_updateStack
              (fun r => isDescribeStacks r = false
                        /\ isCreateStack r = false
                        /\ (noExecute = true \/ isHttpPost r = false))
              rt cfn stack params noEmpty noExecute noDelete) with (h := h)
    as [issued [E H]];
    try (intros; repeat split; auto; fail).
  exists issued. split; [exact E|].
  split; [|split].
  - apply Forall_existsb_false. eapply Forall_impl; [|exact H]. simpl; tauto.
  - apply Forall_existsb_false. eapply Forall_impl; [|exact H]. simpl; tauto.
  - destruct noExecute; [left; reflexivity | right].
    apply Forall_existsb_false. eapply Forall_impl; [|exact H].
    simpl. intros r [_ [_ [D|D]]]; [discriminate | exact D].
Qed.

(** X15. When the change set is created, is executed and the stack update
    completes, [updateStack] returns the identifier of the stack after
    exactly four requests: create the change set, wait for it, execute it,
    wait for the update of the stack, addressed by its identifier. *)
Theorem updateStack_executes :
  forall (rt : Runtime.t) (cfn : CloudFormation.t) (stack : Stack.t)
         (params : CreateChangeSetInput.t) (noEmpty noDelete : bool)
         (h : Log) (cset : CreateChangeSetOutput.t),
    let ref := ref_of params in
    let created := CreateChangeSet params in
    let waited := WaitFor (changeSetCreateComplete ref) in
    let executed := ExecuteChangeSet ref in
    let updated := WaitFor (stackUpdateComplete (Stack.StackId stack)) in
    CloudFormation.createChangeSet cfn h params = Resolved cset ->
    CloudFormation.waitFor cfn (h ++ [created])
      (changeSetCreateComplete ref) = Resolved tt ->
    CloudFormation.executeChangeSet cfn (h ++ [created; waited]) ref
      = Resolved tt ->
    CloudFormation.waitFor cfn (h ++ [created; waited; executed])
      (stackUpdateComplete (Stack.StackId stack)) = Resolved tt ->
    updateStack rt cfn stack params noEmpty false noDelete h =
    (Resolved (Stack.StackId stack),
     h ++ [created; waited; executed; updated]).
Proof.
  intros rt cfn stack params noEmpty noDelete h cset ref created waited
    executed updated Hc Hw He Hu.
  rewrite updateStack_run. cbv zeta.
  fold ref created waited executed. rewrite Hc, Hw, He, Hu. reflexivity.
Qed.

Lemma updateStack_executes_witness :
  updateStack plain_runtime updating_provider sample_stack
    (changeSetInput sample_params) false false false [] =
  (Resolved (Some (js "arn:stack/MockStack/1")),
   [ CreateChangeSet (changeSetInput sample_params);
     WaitFor (changeSetCreateComplete (ref_of (changeSetInput sample_params)));
     ExecuteChangeSet (ref_of (changeSetInput sample_params));
     WaitFor (stackUpdateComplete (Some (js "arn:stack/MockStack/1"))) ]).
Proof.
  exact (@updateStack_executes plain_runtime updating_provider sample_stack
           (changeSetInput sample_params) false false []
           _ eq_refl eq_refl eq_refl eq_refl).
Defined.

(** X16. With [noExecuteChageSet] set and the change set created,
    [updateStack] asks the link shortener for the link of the change set
    and returns the identifier of the stack; when the shortener rejects
    the request, [updateStack] raises that error although the change set
    exists, and it leaves the change set in place. *)
Theorem updateStack_no_execute_link :
  forall (rt : Runtime.t) (cfn : CloudFormation.t) (stack : Stack.t)
         (params : CreateChangeSetInput.t) (noEmpty noDelete : bool)
         (h : Log) (cset : CreateChangeSetOutput.t) (a b : jsstring),
    let ref := ref_of params in
    let created := CreateChangeSet params in
    let waited := WaitFor (changeSetCreateComplete ref) in
    let request := shortenRequest rt (consoleUrl (Runtime.region rt) a b) in
    let run := updateStack rt cfn stack params noEmpty true noDelete h in
    CloudFormation.createChangeSet cfn h params = Resolved cset ->
    CloudFormation.waitFor cfn (h ++ [created])
      (changeSetCreateComplete ref) = Resolved tt ->
    Runtime.encodeURIComponent rt (template (Stack.StackId stack))
      = Resolved a ->
    Runtime.encodeURIComponent rt (template (CreateChangeSetOutput.Id cset))
      = Resolved b ->
    snd run = h ++ [created; waited; HttpPost request]
    /\ match Runtime.axios_post rt (h ++ [created; waited]) request with
       | Resolved _ => fst run = Resolved (Stack.StackId stack)
       | Rejected e => fst run = Rejected e
       end.
Proof.
  intros rt cfn stack params noEmpty noDelete h cset a b ref created waited
    request run Hc Hw Ha Hb.
  subst run. rewrite updateStack_run. cbv zeta.
  fold ref created waited. rewrite Hc, Hw, genCfnUrl_run, Ha, Hb.
  cbv zeta. fold request.
  destruct (Runtime.axios_post rt _ request);
    (split; [cbn [snd]; rewrite <- app_assoc; reflexivity | reflexivity]).
Qed.

Lemma updateStack_no_execute_link_witness :
  fst (updateStack offline_runtime updating_provider sample_stack
         (changeSetInput sample_params) false true false [])
  = Rejected shortener_down
  /\ existsb isDeleteChangeSet
       (snd (updateStack offline_runtime updating_provider sample_stack
               (changeSetInput sample_params) false true false []))
     = false.
Proof.
  destruct (@updateStack_no_execute_link offline_runtime updating_provider
              sample_stack (changeSetInput sample_params) false false []
              _ _ _ eq_refl eq_refl eq_refl eq_refl) as [E1 E2].
  split; [exact E2 | rewrite E1; reflexivity].
Defined.

(* ================================================================= *)
(** ** deployStack, further properties *)

(** X17. When the stack lookup fails with an error that is not the 'does
    not exist' validation error, [deployStack] raises that very error and
    issues no request besides the lookup: it neither creates a stack nor a
    change set. *)
Theorem deployStack_lookup_error_is_fatal :
  forall (rt : Runtime.t) (cfn : CloudFormation.t)
         (params : CreateStackInput.t) (noEmpty noExecute noDelete : bool)
         (h : Log) (e : Exn),
    let name := CreateStackInput.StackName params in
    CloudFormation.describeStacks cfn h name = Rejected e ->
    ~ NotFoundError e ->
    deployStack rt cfn params noEmpty noExecute noDelete h =
    (Rejected e, h ++ [DescribeStacks name]).
Proof.
  intros rt cfn params noEmpty noExecute noDelete h e name Hd Hn.
  rewrite deployStack_run. cbv zeta. fold name.
  rewrite getStack_run, Hd. cbn [fst].
  destruct (isNotFound e) eqn:F; [|reflexivity].
  apply isNotFound_spec in F. contradiction.
Qed.

Lemma deployStack_lookup_error_is_fatal_witness :
  ~ NotFoundError invalid_template
  /\ deployStack plain_runtime (failing_lookup_provider invalid_template)
       sample_params true false false [] =
     (Rejected invalid_template, [DescribeStacks (js "MockStack")]).
Proof.
  assert (N : ~ NotFoundError invalid_template).
  { intros K. apply isNotFound_spec in K. discriminate K. }
  split; [exact N|].
  exact (@deployStack_lookup_error_is_fatal plain_runtime
           (failing_lookup_provider invalid_template) sample_params
           true false false [] invalid_template eq_refl N).
Defined.

(** X18. Every run of [deployStack] starts with the stack lookup and looks
    the stack up only once; and no run both creates a stack and issues a
    change-set request. *)
Theorem deployStack_creates_or_updates :
  forall (rt : Runtime.t) (cfn : CloudFormation.t)
         (params : CreateStackInput.t) (noEmpty noExecute noDelete : bool)
         (h : Log),
  exists rest,
    snd (deployStack rt cfn params noEmpty noExecute noDelete h) =
    h ++ DescribeStacks (CreateStackInput.StackName params) :: rest
    /\ existsb isDescribeStacks rest = false
    /\ (existsb isCreateStack rest = false
        \/ existsb isChangeSetRequest rest = false).
Proof.
  intros rt cfn params noEmpty noExecute noDelete h.
  rewrite deployStack_run. cbv zeta.
  destruct (fst (getStack cfn _ h)) as [[stack|]|e].
  - destruct (updateStack_stays_with_change_set_aux rt cfn stack
                (changeSetInput params) noEmpty noExecute noDelete
                (h ++ [DescribeStacks (CreateStackInput.StackName params)]))
      as [issued [E [D C]]].
    exists issued. rewrite E, <- app_assoc. auto.
  - destruct (CloudFormation.createStack cfn _ params) as [stack|e].
    + destruct (CloudFormation.waitFor cfn _ _) as [[]|e];
        eexists;
        (split; [reflexivity|]; split; [reflexivity | right; reflexivity]).
    + eexists.
      split; [reflexivity|]. split; [reflexivity | right; reflexivity].
  - exists []. auto.
Qed.

(** X19. For a stack that does not exist yet the three flags have no
    effect: the stack is created also when [noExecuteChageSet] is set. *)
Theorem deployStack_absent_ignores_flags :
  forall (rt : Runtime.t) (cfn : CloudFormation.t)
         (params : CreateStackInput.t) (h : Log)
         (noEmpty noExecute noDelete noEmpty' noExecute' noDelete' : bool),
    fst (getStack cfn (CreateStackInput.StackName params) h)
    = Resolved None ->
    deployStack rt cfn params noEmpty noExecute noDelete h =
    deployStack rt cfn params noEmpty' noExecute' noDelete' h
    /\ In (CreateStack params)
         (snd (deployStack rt cfn params noEmpty noExecute noDelete h)).
Proof.
  intros rt cfn params h noEmpty noExecute noDelete noEmpty' noExecute'
    noDelete' H.
  rewrite !deployStack_run. cbv zeta. rewrite H.
  split; [reflexivity|].
  destruct (CloudFormation.createStack cfn _ params) as [stack|e];
    [destruct (CloudFormation.waitFor cfn _ _) as [[]|e]|];
    cbn [snd]; apply in_or_app; right; simpl; auto.
Qed.

Lemma deployStack_absent_ignores_flags_witness :
  fst (getStack absent_stack_provider (js "MockStack") []) = Resolved None
  /\ deployStack plain_runtime absent_stack_provider sample_params
       false false false [] =
     deployStack plain_runtime absent_stack_provider sample_params
       true true true []
  /\ In (CreateStack sample_params)
       (snd (deployStack plain_runtime absent_stack_provider sample_params
               false false false [])).
Proof.
  split; [reflexivity|].
  exact (@deployStack_absent_ignores_flags plain_runtime
           absent_stack_provider sample_params [] false false false
           true true true eq_refl).
Defined.

(* ================================================================= *)
(** ** getStackOutputs, further properties *)

Lemma fold_add_output_entries (l : list Output.t) :
  forall m,
    fold_left add_output l m =
    fold_left (fun m kv => JsMap.set (fst kv) (snd kv) m)
      (List.map output_entry (filter present l)) m.
Proof.
  induction l as [|o l IH]; intros m; simpl; [reflexivity|].
  destruct (present o) eqn:P; simpl.
  - rewrite add_output_present by assumption. apply IH.
  - rewrite add_output_skipped by assumption. apply IH.
Qed.

(** The keys after a run of [set]s: the old keys in place, then the new
    ones in the order they first came. *)
Lemma keys_fold_set {V} (kvs : list (jsstring * V)) :
  forall m : JsMap.t V,
    JsMap.keys (fold_left (fun m kv => JsMap.set (fst kv) (snd kv) m) kvs m) =
    JsMap.keys m ++
    filter (fun k => negb (mem k (JsMap.keys m)))
      (first_seen (List.map fst kvs)).
Proof.
  induction kvs as [|[k v] kvs IH]; intros m; simpl.
  - rewrite app_nil_r; reflexivity.
  - rewrite IH. simpl. rewrite JsMapFacts.keys_set, filter_filter.
    destruct (mem k (JsMap.keys m)) eqn:E; simpl.
    + f_equal. apply filter_ext_in. intros x _.
      destruct (str_eqb x k) eqn:Ex; simpl; [|reflexivity].
      apply str_eqb_eq in Ex; subst x. rewrite E; reflexivity.
    + rewrite <- app_assoc; simpl. do 2 f_equal.
      apply filter_ext_in. intros x _.
      unfold mem. rewrite existsb_app; simpl.
      rewrite orb_false_r, negb_orb, andb_comm. reflexivity.
Qed.

Lemma filter_true {A} (l : list A) : filter (fun _ => true) l = l.
Proof. induction l as [|x l IH]; simpl; [|rewrite IH]; reflexivity. Qed.

(** X20. The map [getStackOutputs] returns lists its keys in the order in
    which they first come among the stack's outputs that have a non-empty
    key and value: a key that comes again keeps its first place. *)
Theorem getStackOutputs_key_order :
  forall (cfn : CloudFormation.t) (stackId : jsstring) (h : Log)
         (stack : Stack.t),
    fst (getStack cfn stackId h) = Resolved (Some stack) ->
    exists outputs,
      fst (getStackOutputs cfn stackId h) = Resolved outputs
      /\ JsMap.keys outputs =
         first_seen
           (List.map (fun o => value_text (Output.OutputKey o))
              (filter present (outputs_of stack))).
Proof.
  intros cfn stackId h stack H. rewrite getStackOutputs_run, H. cbn [fst].
  eexists; split; [reflexivity|].
  rewrite fold_add_output_entries, keys_fold_set.
  cbn [JsMap.keys JsMap.empty List.map app mem existsb negb].
  rewrite filter_true, map_map. reflexivity.
Qed.

Lemma getStackOutputs_key_order_witness :
  fst (getStack updating_provider (js "MockStack") [])
  = Resolved (Some sample_stack)
  /\ exists outputs,
       fst (getStackOutputs updating_provider (js "MockStack") [])
       = Resolved outputs
       /\ JsMap.keys outputs = [js "Url"].
Proof.
  split; [reflexivity|].
  exact (@getStackOutputs_key_order updating_provider (js "MockStack") []
           sample_stack eq_refl).
Defined.

Lemma fold_set_fresh {V} (kvs : list (jsstring * V)) :
  forall m : JsMap.t V,
    NoDup (JsMap.keys m ++ List.map fst kvs) ->
    fold_left (fun m kv => JsMap.set (fst kv) (snd kv) m) kvs m = m ++ kvs.
Proof.
  induction kvs as [|[k v] kvs IH]; intros m H; simpl.
  - rewrite app_nil_r; reflexivity.
  - assert (F : JsMap.set k v m = m ++ [(k, v)]).
    { assert (Hk : ~ In k (JsMap.keys m)).
      { intros Hin. apply NoDup_remove_2 in H. apply H.
        apply in_or_app; left; exact Hin. }
      clear H IH. induction m as [|[k' v'] m IHm]; simpl; [reflexivity|].
      destruct (str_eqb k k') eqn:E.
      - apply str_eqb_eq in E; subst. simpl in Hk. tauto.
      - rewrite IHm; [reflexivity|]. simpl in Hk. tauto. }
    rewrite F, IH.
    + rewrite <- app_assoc. reflexivity.
    + unfold JsMap.keys in *. rewrite map_app, <- app_assoc. exact H.
Qed.

(** X21. For a stack whose outputs all have a non-empty key and value,
    under pairwise distinct keys, the map [getStackOutputs] returns holds
    the outputs one for one, in their order. *)
Theorem getStackOutputs_of_tidy_stack :
  forall (cfn : CloudFormation.t) (stackId : jsstring) (h : Log)
         (stack : Stack.t),
    fst (getStack cfn stackId h) = Resolved (Some stack) ->
    forallb present (outputs_of stack) = true ->
    NoDup (List.map (fun o => value_text (Output.OutputKey o))
             (outputs_of stack)) ->
    fst (getStackOutputs cfn stackId h) =
    Resolved (List.map output_entry (outputs_of stack)).
Proof.
  intros cfn stackId h stack H Hp Hk. rewrite getStackOutputs_run, H.
  cbn [fst]. f_equal.
  rewrite fold_add_output_entries.
  assert (F : filter present (outputs_of stack) = outputs_of stack).
  { clear Hk. induction (outputs_of stack) as [|o l IH]; [reflexivity|].
    simpl in *. apply andb_true_iff in Hp. destruct Hp as [-> Hp].
    rewrite IH by assumption. reflexivity. }
  rewrite F, fold_set_fresh; [reflexivity|].
  cbn [JsMap.keys JsMap.empty List.map app]. rewrite map_map. exact Hk.
Qed.

Lemma getStackOutputs_of_tidy_stack_witness :
  forallb present (outputs_of tidy_stack) = true
  /\ fst (getStackOutputs tidy_provider (js "MockStack") []) =
     Resolved [ (js "Url", js "https://x");
                (js "Arn", js "arn:aws:s3:::bucket") ].
Proof.
  split; [reflexivity|].
  refine (@getStackOutputs_of_tidy_stack tidy_provider (js "MockStack") []
            tidy_stack eq_refl eq_refl _).
  repeat constructor; vm_compute; intuition discriminate.
Defined.
